(** * ngx.command: the [ssvCommand] directive and the Command it drives

    The development has three parts.

    - [Js]: the fragment of JavaScript values the directive manipulates
      (truthiness, [||], [Array.isArray], spread, [Function.prototype.bind])
      and a small monad for methods that mutate [this], log what they call
      and may throw.
    - [Directive]: the class [CommandDirective] of
      [src/command.directive.ts], method by method.
    - [Command]: the Command state machine.  The class lives in
      [./command], which is not among the sources; it is modelled from the
      specification and every definition there says so. *)

From Stdlib Require Import List String Bool Arith Lia PrimFloat.
Import ListNotations.
Local Open Scope string_scope.
Local Open Scope list_scope.
Set Warnings "-register-all".

(* ===================================================================== *)
(** ** JavaScript values *)
(* ===================================================================== *)

Module Js.

(** Values that can reach the directive through a template binding.
    Numbers are IEEE doubles, as in the language; objects other than
    arrays are opaque references (they only matter through their
    truthiness and their identity). *)
Inductive JsValue : Type :=
| JUndefined
| JNull
| JBool (b : bool)
| JNumber (x : float)
| JString (s : string)
| JArray (items : list JsValue)
| JObject (ref : nat).

(** [ToBoolean]: [undefined], [null], [false], [+0], [-0], [NaN] and the
    empty string are falsy, everything else (every object, every array,
    the empty array included) is truthy. *)
Definition truthy (v : JsValue) : bool :=
  match v with
  | JUndefined => false
  | JNull => false
  | JBool b => b
  | JNumber x => negb (PrimFloat.eqb x zero || negb (PrimFloat.eqb x x))
  | JString s => negb (String.eqb s "")
  | JArray _ => true
  | JObject _ => true
  end.

(** [a || b]: the left operand when it is truthy, the right one otherwise. *)
Definition js_or (a b : JsValue) : JsValue :=
  if truthy a then a else b.

(** [Array.isArray(v)]. *)
Definition isArray (v : JsValue) : bool :=
  match v with
  | JArray _ => true
  | _ => false
  end.

(** What a thrown value looks like to the caller. *)
Inductive JsError : Type :=
| Error (message : string)
| TypeError (message : string).

Inductive Result (A : Type) : Type :=
| Ok (a : A)
| Throw (e : JsError).

Arguments Ok {A} a.
Arguments Throw {A} e.

(** A function value: called with a [this] and an argument list, it
    returns or throws. *)
Definition JsFunction : Type := JsValue -> list JsValue -> Result JsValue.

(** [f.bind(thisArg, ...bound)]: the receiver of the later call is
    ignored and the bound arguments come first. *)
Definition bind (f : JsFunction) (thisArg : JsValue) (bound : list JsValue)
  : JsFunction :=
  fun _ args => f thisArg (bound ++ args).

(** [x === y] on [boolean | undefined]. *)
Definition strict_eq_flag (x y : option bool) : bool :=
  match x, y with
  | None, None => true
  | Some a, Some b => Bool.eqb a b
  | _, _ => false
  end.

End Js.

Export Js.

(* ===================================================================== *)
(** ** Methods: state, trace and exceptions *)
(* ===================================================================== *)

(** A method run from state [S] leaves a result or an exception, the state
    as mutated so far (a [throw] does not roll assignments back) and the
    calls it made on its collaborators, oldest first. *)
Module Method.

Section Monad.
Variables S E : Type.

Record Outcome (A : Type) : Type := mkOutcome {
  result : Result A;
  state : S;
  trace : list E
}.

Definition M (A : Type) : Type := S -> Outcome A.

Definition ret {A} (a : A) : M A :=
  fun s => mkOutcome A (Ok a) s [].

Definition throw {A} (e : JsError) : M A :=
  fun s => mkOutcome A (Throw e) s [].

Definition bindM {A B} (m : M A) (k : A -> M B) : M B :=
  fun s =>
    let o := m s in
    match result A o with
    | Ok a =>
        let o' := k a (state A o) in
        mkOutcome B (result B o') (state B o') (trace A o ++ trace B o')
    | Throw e => mkOutcome B (Throw e) (state A o) (trace A o)
    end.

Definition gets {A} (f : S -> A) : M A :=
  fun s => mkOutcome A (Ok (f s)) s [].

Definition modify (f : S -> S) : M unit :=
  fun s => mkOutcome unit (Ok tt) (f s) [].

Definition emit (e : E) : M unit :=
  fun s => mkOutcome unit (Ok tt) s [e].

(** The value or exception of a call made by the method. *)
Definition lift {A} (r : Result A) : M A :=
  fun s => mkOutcome A r s [].
End Monad.

Arguments mkOutcome {S E A} _ _ _.
Arguments result {S E A} _.
Arguments state {S E A} _.
Arguments trace {S E A} _.
Arguments ret {S E A} _ _.
Arguments throw {S E A} _ _.
Arguments bindM {S E A B} _ _ _.
Arguments gets {S E A} _ _.
Arguments modify {S E} _ _.
Arguments emit {S E} _ _.
Arguments lift {S E A} _ _.

End Method.

Import Method.

Declare Scope method_scope.
Delimit Scope method_scope with method.
Notation "x <- m ;; k" := (bindM m (fun x => k))
  (at level 61, m at next level, right associativity) : method_scope.
Notation "m ;; k" := (bindM m (fun _ => k))
  (at level 61, right associativity) : method_scope.

(* ===================================================================== *)
(** ** The directive, [src/command.directive.ts] *)
(* ===================================================================== *)

Module Directive.

Local Open Scope method_scope.

(** [CommandCreator], the object literal a template may bind instead of a
    Command ([{host, execute, canExecute, params, isAsync}]).  The
    interface is declared in [./command.model]; the fields are the ones
    [ngOnInit] reads.  [canExecute] is either a function ([inl]) or any
    other value ([inr], [undefined] when the field is left out);
    [isAsync] is [boolean | undefined]. *)
Record CommandCreator : Type := mkCreator {
  host : JsValue;
  execute : JsFunction;
  canExecute : JsFunction + JsValue;
  params : JsValue;
  isAsync : option bool
}.

(** The two type guards of [./command.util], which is not among the
    sources.  [isCommand] answers whether the bound value is a Command;
    [isCommandCreator] is a guard [arg is CommandCreator]: when it answers
    yes the value is read as a creator, which [Some] carries. *)
Class CommandUtil : Type := {
  isCommand : JsValue -> bool;
  isCommandCreator : JsValue -> option CommandCreator;
  (** [!!command.isExecuting$] for a Command handed in from outside. *)
  exposesIsExecuting : JsValue -> bool
}.

(** What [_command] holds: the bound value itself (line 128) or the
    constructor call [new Command(execFn, canExec, isAsync)] (line 146). *)
Inductive ICommand : Type :=
| Given (instance : JsValue)
| NewCommand (execFn : JsFunction) (canExec : JsValue) (isAsync : bool).

(** [CommandOptions] of [./config]; the directive reads these two fields. *)
Record CommandOptions : Type := mkOptions {
  executingCssClass : string;
  handleDisabled : bool
}.

(** Calls the directive makes on its collaborators. *)
Inductive Call : Type :=
| ConsoleError (value : option bool)
| MarkForCheck
| AddClass (cssClass : string)
| RemoveClass (cssClass : string)
| CommandSubscribe (c : ICommand)
| CommandExecute (c : ICommand) (args : list JsValue)
| CommandUnsubscribe (c : ICommand).

(** The fields of a [CommandDirective].  The two [BehaviorSubject]s are
    held by their current value; the three flags say whether the
    subscription opened in [ngOnInit] at lines 152, 163 and 170 is still
    open ([takeUntil(_destroy$)] closes them).  [_commandOptions] starts
    at [config]; its setter (lines 76-84) is not among the methods
    followed below. *)
Record CommandDirective : Type := mkDirective {
  config : CommandOptions;
  commandOrCreator : JsValue;
  commandParams : JsValue;
  _command : option ICommand;
  _disabled : bool;
  _attrDisabled : option bool;
  _commandOptions : CommandOptions;
  optionsOpen : bool;
  canExecuteOpen : bool;
  isExecutingOpen : bool
}.

Definition Dir (A : Type) : Type := M CommandDirective Call A.

(** The directive as the constructor leaves it, with its inputs bound. *)
Definition create (cfg : CommandOptions) (input parameters : JsValue)
  : CommandDirective :=
  {| config := cfg;
     commandOrCreator := input;
     commandParams := parameters;
     _command := None;
     _disabled := false;
     _attrDisabled := None;
     _commandOptions := cfg;
     optionsOpen := false;
     canExecuteOpen := false;
     isExecutingOpen := false |}.

Definition with_commandParams (v : JsValue) (d : CommandDirective) :=
  {| config := config d; commandOrCreator := commandOrCreator d;
     commandParams := v; _command := _command d;
     _disabled := _disabled d; _attrDisabled := _attrDisabled d;
     _commandOptions := _commandOptions d; optionsOpen := optionsOpen d;
     canExecuteOpen := canExecuteOpen d;
     isExecutingOpen := isExecutingOpen d |}.

Definition with_command (c : ICommand) (d : CommandDirective) :=
  {| config := config d; commandOrCreator := commandOrCreator d;
     commandParams := commandParams d; _command := Some c;
     _disabled := _disabled d; _attrDisabled := _attrDisabled d;
     _commandOptions := _commandOptions d; optionsOpen := optionsOpen d;
     canExecuteOpen := canExecuteOpen d;
     isExecutingOpen := isExecutingOpen d |}.

Definition with_disabled (b : bool) (d : CommandDirective) :=
  {| config := config d; commandOrCreator := commandOrCreator d;
     commandParams := commandParams d; _command := _command d;
     _disabled := b; _attrDisabled := _attrDisabled d;
     _commandOptions := _commandOptions d; optionsOpen := optionsOpen d;
     canExecuteOpen := canExecuteOpen d;
     isExecutingOpen := isExecutingOpen d |}.

Definition with_attrDisabled (v : option bool) (d : CommandDirective) :=
  {| config := config d; commandOrCreator := commandOrCreator d;
     commandParams := commandParams d; _command := _command d;
     _disabled := _disabled d; _attrDisabled := v;
     _commandOptions := _commandOptions d; optionsOpen := optionsOpen d;
     canExecuteOpen := canExecuteOpen d;
     isExecutingOpen := isExecutingOpen d |}.

Definition with_subscriptions (o c e : bool) (d : CommandDirective) :=
  {| config := config d; commandOrCreator := commandOrCreator d;
     commandParams := commandParams d; _command := _command d;
     _disabled := _disabled d; _attrDisabled := _attrDisabled d;
     _commandOptions := _commandOptions d; optionsOpen := o;
     canExecuteOpen := c; isExecutingOpen := e |}.

(** The body of the pipeline of lines 152-161 for one value [x] of
    [_attrDisabled$]: [switchMap] listens only when [handleDisabled] is
    set, [filter] keeps [x] when it is defined and differs from
    [this.disabled]. *)
Definition attrPipelineFires (x : option bool) (d : CommandDirective) : bool :=
  optionsOpen d && handleDisabled (_commandOptions d)
  && negb (strict_eq_flag x None)
  && negb (strict_eq_flag x (Some (_disabled d))).

(** [set attrDisabled(value)], lines 100-106.  [_attrDisabled$.next]
    delivers the value to the pipeline at once, and the pipeline's
    [setDisabledProperty(this.disabled)] (line 213) assigns [attrDisabled]
    again: [depth] bounds that re-entrance; running out is reported as a
    [TypeError] no source path produces (see [set_attrDisabled_depth]). *)
Fixpoint set_attrDisabled_upto (depth : nat) (value : option bool)
  : Dir unit :=
  fun d =>
    if strict_eq_flag value (_attrDisabled d) then ret tt d
    else
      (emit (ConsoleError value) ;;
       modify (with_attrDisabled value) ;;
       fires <- gets (attrPipelineFires value) ;;
       if fires then
         match depth with
         | O => throw (TypeError "re-entrance bound exceeded")
         | S depth' =>
             now <- gets _disabled ;;
             set_attrDisabled_upto depth' (Some now) ;;
             emit MarkForCheck
         end
       else ret tt) d.

Definition set_attrDisabled : option bool -> Dir unit :=
  set_attrDisabled_upto 1.

(** [set disabled(value)], lines 90-96. *)
Definition set_disabled (value : bool) : Dir unit :=
  fun d =>
    if Bool.eqb value (_disabled d) then ret tt d
    else
      (modify (with_disabled value) ;;
       set_attrDisabled (Some value)) d.

(** The action as the specification words it for a creator, to be set
    against [execFn] of [resolveCommand]: [execute] bound to the host
    "and parameters curried at bind time". *)
Definition curriedAction (creator : CommandCreator) (bound : list JsValue)
  : JsFunction :=
  bind (execute creator) (host creator) bound.

(** [isAsync || isAsync === undefined], line 130, on [boolean | undefined]. *)
Definition asyncFlag (a : option bool) : bool :=
  match a with
  | Some true => true
  | _ => strict_eq_flag a None
  end.

(** Subscribing the pipeline of lines 152-161: both subjects replay their
    current value, so the body runs once for the value [_attrDisabled$]
    holds. *)
Definition subscribeOptions : Dir unit :=
  modify (fun d =>
    with_subscriptions true (canExecuteOpen d) (isExecutingOpen d) d) ;;
  x <- gets _attrDisabled ;;
  fires <- gets (attrPipelineFires x) ;;
  if fires then
    now <- gets _disabled ;;
    set_attrDisabled (Some now) ;;
    emit MarkForCheck
  else ret tt.

(** [!!this._command.isExecuting$], line 169: a Command built by the
    directive has the stream. *)
Definition hasIsExecuting `{CommandUtil} (c : ICommand) : bool :=
  match c with
  | Given v => exposesIsExecuting v
  | NewCommand _ _ _ => true
  end.

(** Lines 125-149: resolve [commandOrCreator] into [_command]. *)
Definition resolveCommand `{CommandUtil} : Dir ICommand :=
  input <- gets commandOrCreator ;;
  if negb (truthy input) then
    throw (Error "ssvCommand: [ssvCommand] should be defined!")
  else if isCommand input then
    modify (with_command (Given input)) ;;
    ret (Given input)
  else
    match isCommandCreator input with
    | Some creator =>
        let isAsync := asyncFlag (isAsync creator) in
        let execFn := bind (execute creator) (host creator) [] in
        own <- gets commandParams ;;
        modify (with_commandParams (js_or own (params creator))) ;;
        bound <- gets commandParams ;;
        canExec <- match canExecute creator with
                   | inl f => lift (bind f (host creator) [bound] JUndefined [])
                   | inr v => ret v
                   end ;;
        modify (with_command (NewCommand execFn canExec isAsync)) ;;
        ret (NewCommand execFn canExec isAsync)
    | None =>
        throw (Error "ssvCommand: [ssvCommand] is not defined properly!")
    end.

(** Lines 151-187: subscribe the Command, then open the three
    subscriptions of the directive.  What the Command's streams hand to
    a new subscriber arrives through [onCanExecute] and [onIsExecuting]
    below, as the first turns after [ngOnInit]. *)
Definition openSubscriptions `{CommandUtil} (c : ICommand) : Dir unit :=
  emit (CommandSubscribe c) ;;
  subscribeOptions ;;
  modify (fun d =>
    with_subscriptions (optionsOpen d) true (isExecutingOpen d) d) ;;
  if hasIsExecuting c then
    modify (fun d =>
      with_subscriptions (optionsOpen d) (canExecuteOpen d) true d)
  else ret tt.

(** [ngOnInit], lines 122-188. *)
Definition ngOnInit `{CommandUtil} : Dir unit :=
  set_disabled true ;;
  c <- resolveCommand ;;
  openSubscriptions c.

(** The arguments of the call at lines 193-197: an array is spread,
    anything else is the only argument. *)
Definition clickArguments (parameters : JsValue) : list JsValue :=
  match parameters with
  | JArray items => items
  | other => [other]
  end.

(** [onClick], lines 190-198.  Reading [execute] off an undefined
    [_command] is a [TypeError]. *)
Definition onClick : Dir unit :=
  parameters <- gets commandParams ;;
  held <- gets _command ;;
  match held with
  | Some c => emit (CommandExecute c (clickArguments parameters))
  | None =>
      throw (TypeError "Cannot read properties of undefined (reading 'execute')")
  end.

(** [ngOnDestroy], lines 200-209.  [_destroy$.next()] closes the three
    subscriptions; completing the subjects calls nothing back. *)
Definition ngOnDestroy : Dir unit :=
  modify (with_subscriptions false false false) ;;
  held <- gets _command ;;
  match held with
  | Some c => emit (CommandUnsubscribe c)
  | None => ret tt
  end.

(** The callback of line 164-165, run for a value of [canExecute$] while
    the subscription is open. *)
Definition onCanExecute (canExecuteNow : bool) : Dir unit :=
  live <- gets canExecuteOpen ;;
  if live then
    set_disabled (negb canExecuteNow) ;;
    emit MarkForCheck
  else ret tt.

(** The callback of lines 171-184, run for a value of [isExecuting$]. *)
Definition onIsExecuting (x : bool) : Dir unit :=
  live <- gets isExecutingOpen ;;
  if live then
    options <- gets _commandOptions ;;
    if x then emit (AddClass (executingCssClass options))
    else emit (RemoveClass (executingCssClass options))
  else ret tt.

(** What can happen to an initialised directive, one event-loop turn at a
    time: a value on either stream of its Command, or a click. *)
Inductive Turn : Type :=
| CanExecuteNext (value : bool)
| IsExecutingNext (value : bool)
| Click.

Definition turn (t : Turn) : Dir unit :=
  match t with
  | CanExecuteNext b => onCanExecute b
  | IsExecutingNext b => onIsExecuting b
  | Click => onClick
  end.

(** The directive after a sequence of turns; an exception ends its turn
    only. *)
Definition after (turns : list Turn) (d : CommandDirective)
  : CommandDirective :=
  fold_left (fun acc t => state (turn t acc)) turns d.

(** The last value [canExecute$] delivered, if any. *)
Fixpoint lastCanExecute (turns : list Turn) : option bool :=
  match turns with
  | [] => None
  | CanExecuteNext b :: rest =>
      match lastCanExecute rest with
      | Some later => Some later
      | None => Some b
      end
  | _ :: rest => lastCanExecute rest
  end.

End Directive.

(* ===================================================================== *)
(** ** The Command state machine *)
(* ===================================================================== *)

Module Command.

Local Open Scope method_scope.

(** Modelled from the spec: the class [Command] of [./command] is missing
    from the sources.  Its executability source is left out ("always
    executable"), a constant boolean, or a live boolean stream, given here
    by the value it holds at construction. *)
Inductive Executability : Type :=
| Omitted
| Constant (value : bool)
| Stream (initial : bool).

(** Modelled from the spec: the life cycle of section 3 -- created once,
    activated by [subscribe], torn down by [unsubscribe]. *)
Inductive Phase : Type :=
| Created
| Subscribed
| TornDown.

(** Modelled from the spec: the Command entity of section 3.  [gate] is
    the value the executability source holds now, [pending] counts the
    asynchronous invocations that have not settled, [isExecuting] and
    [canExecute] are the values the two signals hold (replay-latest). *)
Record Command : Type := mkCommand {
  executability : Executability;
  allowConcurrentExecution : bool;
  isAsync : bool;
  phase : Phase;
  gate : bool;
  pending : nat;
  isExecuting : bool;
  canExecute : bool
}.

(** Modelled from the spec: what an observer of a Command can see -- a
    value pushed on either signal, the action being invoked with its
    arguments, and a failed action being reported to the caller
    (section 7). *)
Inductive Signal : Type :=
| CanExecute (value : bool)
| IsExecuting (value : bool)
| Invoke (args : list JsValue)
| ReportFailure.

(** Modelled from the spec: how an asynchronous action settles. *)
Inductive Settlement : Type :=
| Succeeded
| Failed.

(** Modelled from the spec: a method of the missing class, run on the
    Command's state and logging what observers see. *)
Definition Cmd (A : Type) : Type := M Command Signal A.

(** Modelled from the spec: "canExecute (derived boolean):
    executabilityGate_value AND (allowConcurrentExecution OR NOT
    isExecuting)". *)
Definition derived (c : Command) : bool :=
  gate c && (allowConcurrentExecution c || negb (isExecuting c)).

(** Modelled from the spec: "omission implies always executable"; a
    stream's "current value is read synchronously". *)
Definition initialGate (e : Executability) : bool :=
  match e with
  | Omitted => true
  | Constant b => b
  | Stream b => b
  end.

(** Modelled from the spec: construction (section 4.1) from the
    executability source and the two flags; the initial state is Idle. *)
Definition construct (e : Executability) (allowConcurrent async : bool)
  : Command :=
  {| executability := e;
     allowConcurrentExecution := allowConcurrent;
     isAsync := async;
     phase := Created;
     gate := initialGate e;
     pending := 0;
     isExecuting := false;
     canExecute := initialGate e |}.

(** Field updates of the modelled record. *)
Definition with_phase (p : Phase) (c : Command) : Command :=
  {| executability := executability c;
     allowConcurrentExecution := allowConcurrentExecution c;
     isAsync := isAsync c; phase := p; gate := gate c;
     pending := pending c; isExecuting := isExecuting c;
     canExecute := canExecute c |}.

Definition with_gate (b : bool) (c : Command) : Command :=
  {| executability := executability c;
     allowConcurrentExecution := allowConcurrentExecution c;
     isAsync := isAsync c; phase := phase c; gate := b;
     pending := pending c; isExecuting := isExecuting c;
     canExecute := canExecute c |}.

Definition with_pending (n : nat) (c : Command) : Command :=
  {| executability := executability c;
     allowConcurrentExecution := allowConcurrentExecution c;
     isAsync := isAsync c; phase := phase c; gate := gate c;
     pending := n; isExecuting := isExecuting c;
     canExecute := canExecute c |}.

Definition with_isExecuting (b : bool) (c : Command) : Command :=
  {| executability := executability c;
     allowConcurrentExecution := allowConcurrentExecution c;
     isAsync := isAsync c; phase := phase c; gate := gate c;
     pending := pending c; isExecuting := b;
     canExecute := canExecute c |}.

Definition with_canExecute (b : bool) (c : Command) : Command :=
  {| executability := executability c;
     allowConcurrentExecution := allowConcurrentExecution c;
     isAsync := isAsync c; phase := phase c; gate := gate c;
     pending := pending c; isExecuting := isExecuting c;
     canExecute := b |}.

(** Modelled from the spec: "canExecute recomputes synchronously whenever
    either executabilityGate or isExecuting changes"; subscribers are
    pushed the value when it changed. *)
Definition recompute : Cmd unit :=
  fun c =>
    let v := derived c in
    if Bool.eqb v (canExecute c) then ret tt c
    else (modify (with_canExecute v) ;; emit (CanExecute v)) c.

(** Modelled from the spec: "updates to isExecuting immediately propagate
    to canExecute subscribers". *)
Definition setExecuting (b : bool) : Cmd unit :=
  fun c =>
    if Bool.eqb b (isExecuting c) then ret tt c
    else
      (modify (with_isExecuting b) ;;
       emit (IsExecuting b) ;;
       recompute) c.

(** Modelled from the spec: [subscribe()] wires the gate and the executing
    flag into [canExecute]; each signal hands its current value to the new
    subscriber.  A second call, or a call after teardown, wires nothing. *)
Definition subscribe : Cmd unit :=
  fun c =>
    match phase c with
    | Created =>
        (modify (with_phase Subscribed) ;;
         modify (fun c' => with_canExecute (derived c') c') ;;
         emit (IsExecuting (isExecuting c)) ;;
         emit (CanExecute (derived c))) c
    | _ => ret tt c
    end.

(** Modelled from the spec: [execute(...args)], section 4.1.  Before
    [subscribe] and after [unsubscribe] it is a no-op.  A synchronous
    action is invoked at once and the flag is not toggled; an asynchronous
    one is ignored when already executing with concurrency disallowed,
    otherwise the flag is set and the action invoked. *)
Definition execute (args : list JsValue) : Cmd unit :=
  fun c =>
    match phase c with
    | Subscribed =>
        if negb (isAsync c) then emit (Invoke args) c
        else if isExecuting c && negb (allowConcurrentExecution c)
        then ret tt c
        else
          (modify (fun c' => with_pending (S (pending c')) c') ;;
           setExecuting true ;;
           emit (Invoke args)) c
    | _ => ret tt c
    end.

(** Modelled from the spec: settlement of an in-flight action, "on
    settlement (success or failure) set isExecuting = false", the flag
    falling "only after the last pending invocation settles"; a failure is
    reported, not swallowed.  [unsubscribe] "freezes further
    transitions". *)
Definition settle (how : Settlement) : Cmd unit :=
  fun c =>
    match phase c, pending c with
    | Subscribed, S n =>
        (modify (with_pending n) ;;
         (match n with
          | O => setExecuting false
          | S _ => ret tt
          end) ;;
         match how with
         | Succeeded => ret tt
         | Failed => emit ReportFailure
         end) c
    | _, _ => ret tt c
    end.

(** Modelled from the spec: a new value on the executability stream; the
    Command observes it, and republishes [canExecute], only while
    subscribed.  A constant or omitted source never changes. *)
Definition gateNext (b : bool) : Cmd unit :=
  fun c =>
    match executability c with
    | Stream _ =>
        (modify (with_gate b) ;;
         match phase c with
         | Subscribed => recompute
         | _ => ret tt
         end) c
    | _ => ret tt c
    end.

(** Modelled from the spec: [unsubscribe()] releases every subscription;
    the Command is unusable from then on. *)
Definition unsubscribe : Cmd unit :=
  modify (with_phase TornDown).

(** Modelled from the spec: everything that can happen to a Command --
    the three calls of its public contract, the settlement of an action
    it started, and a new value of its executability stream. *)
Inductive Event : Type :=
| Subscribe
| Execute (args : list JsValue)
| Settle (how : Settlement)
| GateNext (value : bool)
| Unsubscribe.

(** Modelled from the spec: one transition. *)
Definition step (e : Event) : Cmd unit :=
  match e with
  | Subscribe => subscribe
  | Execute args => execute args
  | Settle how => settle how
  | GateNext b => gateNext b
  | Unsubscribe => unsubscribe
  end.

(** Modelled from the spec: a sequence of transitions, "single-threaded,
    event-driven", one after the other. *)
Fixpoint run (events : list Event) : Cmd unit :=
  match events with
  | [] => ret tt
  | e :: rest => step e ;; run rest
  end.

Definition isSettle (e : Event) : bool :=
  match e with
  | Settle _ => true
  | _ => false
  end.

(** The values pushed on [canExecute] and on [isExecuting], and the
    invocations of the action, in a trace. *)
Fixpoint canExecuteValues (t : list Signal) : list bool :=
  match t with
  | [] => []
  | CanExecute b :: rest => b :: canExecuteValues rest
  | _ :: rest => canExecuteValues rest
  end.

Fixpoint isExecutingValues (t : list Signal) : list bool :=
  match t with
  | [] => []
  | IsExecuting b :: rest => b :: isExecutingValues rest
  | _ :: rest => isExecutingValues rest
  end.

Fixpoint invocations (t : list Signal) : list (list JsValue) :=
  match t with
  | [] => []
  | Invoke args :: rest => args :: invocations rest
  | _ :: rest => invocations rest
  end.

(** What holds of every state a Command can be in: the flag is up exactly
    when something is pending, a synchronous Command has nothing pending,
    without concurrency at most one invocation is pending, and a
    subscribed Command publishes the derived value. *)
Record consistent (c : Command) : Prop := mkConsistent {
  busy_iff_pending : isExecuting c = (0 <? pending c)%nat;
  sync_never_pending : isAsync c = false -> pending c = 0%nat;
  exclusive_pending : allowConcurrentExecution c = false -> (pending c <= 1)%nat;
  published : phase c = Subscribed -> canExecute c = derived c
}.

End Command.

(* ===================================================================== *)
(** ** Sample inputs *)
(* ===================================================================== *)

Module Demo.

Import Directive.

(** A function that returns its receiver followed by its arguments. *)
Definition echo : JsFunction :=
  fun this args => Ok (JArray (this :: args)).

(** The creator of the usage notes,
    [{host: this, execute: removeHero$, canExecute: isValid$,
      params: [hero, 1337]}]. *)
Definition removeHero : CommandCreator :=
  {| host := JObject 1;
     execute := echo;
     canExecute := inl echo;
     params := JArray [JString "hero"; JNumber 1337];
     isAsync := None |}.

(** Object 7 is a Command, object 9 the creator above. *)
Definition util : CommandUtil :=
  {| isCommand := fun v => match v with JObject 7 => true | _ => false end;
     isCommandCreator :=
       fun v => match v with JObject 9 => Some removeHero | _ => None end;
     exposesIsExecuting := fun _ => true |}.

Definition options : CommandOptions :=
  {| executingCssClass := "executing"; handleDisabled := true |}.

(** [<button [ssvCommand]="saveCmd" [ssvCommandParams]="['a', 'b']">] *)
Definition withCommand : CommandDirective :=
  create options (JObject 7) (JArray [JString "a"; JString "b"]).

(** [<button [ssvCommand]="{host: this, execute: ...}">] *)
Definition withCreator : CommandDirective :=
  create options (JObject 9) JUndefined.

(** [<button [ssvCommand]="undefined">] *)
Definition unbound : CommandDirective :=
  create options JUndefined JUndefined.

(** An asynchronous Command without concurrency, subscribed and with one
    invocation in flight. *)
Definition inFlight : Command.Command :=
  state (Command.run [Command.Subscribe; Command.Execute []]
           (Command.construct (Command.Constant true) false true)).

End Demo.

(* ===================================================================== *)
(** ** The directive over its whole life *)
(* ===================================================================== *)

Module Lifecycle.

Import Directive.

Local Open Scope method_scope.

Definition with_commandOptions (o : CommandOptions) (d : CommandDirective) :=
  {| config := config d; commandOrCreator := commandOrCreator d;
     commandParams := commandParams d; _command := _command d;
     _disabled := _disabled d; _attrDisabled := _attrDisabled d;
     _commandOptions := o; optionsOpen := optionsOpen d;
     canExecuteOpen := canExecuteOpen d;
     isExecutingOpen := isExecutingOpen d |}.

(** The directive with other [commandParams] and [_command], the two
    fields [ngOnInit] assigns besides [disabled]. *)
Definition retarget (parameters : JsValue) (held : option ICommand)
           (d : CommandDirective) :=
  {| config := config d; commandOrCreator := commandOrCreator d;
     commandParams := parameters; _command := held;
     _disabled := _disabled d; _attrDisabled := _attrDisabled d;
     _commandOptions := _commandOptions d; optionsOpen := optionsOpen d;
     canExecuteOpen := canExecuteOpen d;
     isExecutingOpen := isExecutingOpen d |}.

(** The directive with [handleDisabled] switched off, in the injected
    configuration and in the current options. *)
Definition withoutHandle (o : CommandOptions) : CommandOptions :=
  {| executingCssClass := executingCssClass o; handleDisabled := false |}.

Definition handleOff (d : CommandDirective) :=
  {| config := withoutHandle (config d);
     commandOrCreator := commandOrCreator d;
     commandParams := commandParams d; _command := _command d;
     _disabled := _disabled d; _attrDisabled := _attrDisabled d;
     _commandOptions := withoutHandle (_commandOptions d);
     optionsOpen := optionsOpen d;
     canExecuteOpen := canExecuteOpen d;
     isExecutingOpen := isExecutingOpen d |}.

(** What a template can assign to [ssvCommandOptions]: the very object
    the getter returns (the only value [value === this.commandOptions]
    holds for, line 77), or another object, given by the fields it
    carries; a field left out is [None]. *)
Inductive OptionsInput : Type :=
| SameObject
| Literal (cssClass : option string) (handle : option bool).

(** [{...this.config, ...value}], lines 80-83: the fields of [value]
    win, the others come from [config]. *)
Definition mergeOptions (cfg : CommandOptions) (cssClass : option string)
           (handle : option bool) : CommandOptions :=
  {| executingCssClass :=
       match cssClass with
       | Some c => c
       | None => executingCssClass cfg
       end;
     handleDisabled :=
       match handle with
       | Some h => h
       | None => handleDisabled cfg
       end |}.

(** [set commandOptions(value)], lines 76-84.  While the pipeline of
    lines 152-161 is subscribed, the new value makes [switchMap] drop its
    inner subscription and open one on the stream the new options select,
    and [_attrDisabled$] replays its current value into the filter. *)
Definition set_commandOptions (value : OptionsInput) : Dir unit :=
  match value with
  | SameObject => ret tt
  | Literal cssClass handle =>
      cfg <- gets config ;;
      modify (with_commandOptions (mergeOptions cfg cssClass handle)) ;;
      subscribed <- gets optionsOpen ;;
      if subscribed then
        x <- gets _attrDisabled ;;
        fires <- gets (attrPipelineFires x) ;;
        if fires then
          now <- gets _disabled ;;
          set_attrDisabled (Some now) ;;
          emit MarkForCheck
        else ret tt
      else ret tt
  end.

(** What can happen to a directive between its construction and the end
    of the page: the two lifecycle hooks, a turn of one of its
    subscriptions or a click, and the framework assigning one of its
    inputs ([disabled], [ssvCommandParams], [ssvCommandOptions]). *)
Inductive Event : Type :=
| Init
| Deliver (t : Turn)
| WriteDisabled (value : bool)
| WriteParams (value : JsValue)
| WriteOptions (value : OptionsInput)
| Destroy.

Definition handle `{CommandUtil} (e : Event) : Dir unit :=
  match e with
  | Init => ngOnInit
  | Deliver t => turn t
  | WriteDisabled b => set_disabled b
  | WriteParams v => modify (with_commandParams v)
  | WriteOptions o => set_commandOptions o
  | Destroy => ngOnDestroy
  end.

(** The directive after a sequence of events, and the calls it made
    meanwhile; an exception ends the event it occurs in and nothing
    else. *)
Fixpoint stateAfter `{CommandUtil} (events : list Event)
         (d : CommandDirective) : CommandDirective :=
  match events with
  | [] => d
  | e :: rest => stateAfter rest (state (handle e d))
  end.

Fixpoint callsDuring `{CommandUtil} (events : list Event)
         (d : CommandDirective) : list Call :=
  match events with
  | [] => []
  | e :: rest => trace (handle e d) ++ callsDuring rest (state (handle e d))
  end.

(** Events other than the two lifecycle hooks. *)
Definition live (e : Event) : bool :=
  match e with
  | Init => false
  | Destroy => false
  | _ => true
  end.

(** Events that are values of the Command's two streams. *)
Definition streamValue (e : Event) : bool :=
  match e with
  | Deliver (CanExecuteNext _) => true
  | Deliver (IsExecutingNext _) => true
  | _ => false
  end.

(** The parts of a trace: calls on the Command, calls on the renderer,
    values logged with [console.error], calls of [markForCheck]. *)
Fixpoint commandCalls (t : list Call) : list Call :=
  match t with
  | [] => []
  | CommandSubscribe c :: rest => CommandSubscribe c :: commandCalls rest
  | CommandExecute c args :: rest => CommandExecute c args :: commandCalls rest
  | CommandUnsubscribe c :: rest => CommandUnsubscribe c :: commandCalls rest
  | _ :: rest => commandCalls rest
  end.

Fixpoint classCalls (t : list Call) : list Call :=
  match t with
  | [] => []
  | AddClass c :: rest => AddClass c :: classCalls rest
  | RemoveClass c :: rest => RemoveClass c :: classCalls rest
  | _ :: rest => classCalls rest
  end.

Fixpoint consoleValues (t : list Call) : list (option bool) :=
  match t with
  | [] => []
  | ConsoleError v :: rest => v :: consoleValues rest
  | _ :: rest => consoleValues rest
  end.

(** [attr.disabled] mirrors [disabled]: it is still [undefined] with
    [disabled] false, as the constructor leaves them, or it holds the
    value of [disabled]. *)
Definition mirrors (d : CommandDirective) : Prop :=
  match _attrDisabled d with
  | None => _disabled d = false
  | Some b => b = _disabled d
  end.

(** The values the events assign to [disabled], oldest first, on a
    directive whose [canExecute$] subscription is open. *)
Fixpoint writes (events : list Event) : list bool :=
  match events with
  | [] => []
  | Deliver (CanExecuteNext b) :: rest => negb b :: writes rest
  | WriteDisabled v :: rest => v :: writes rest
  | _ :: rest => writes rest
  end.

(** The values of a list that differ from the one before them, [start]
    being before the first. *)
Fixpoint changes (start : bool) (values : list bool) : list bool :=
  match values with
  | [] => []
  | v :: rest =>
      if Bool.eqb v start then changes start rest
      else v :: changes v rest
  end.

(** One [execute] per click, with the params current at the click. *)
Fixpoint executes (c : ICommand) (parameters : JsValue)
         (events : list Event) : list Call :=
  match events with
  | [] => []
  | Deliver Click :: rest =>
      CommandExecute c (clickArguments parameters)
      :: executes c parameters rest
  | WriteParams v :: rest => executes c v rest
  | _ :: rest => executes c parameters rest
  end.

(** One renderer call per value of [isExecuting$], on the class the
    options name when the value arrives. *)
Fixpoint toggles (cfg : CommandOptions) (cssClass : string)
         (events : list Event) : list Call :=
  match events with
  | [] => []
  | Deliver (IsExecutingNext true) :: rest =>
      AddClass cssClass :: toggles cfg cssClass rest
  | Deliver (IsExecutingNext false) :: rest =>
      RemoveClass cssClass :: toggles cfg cssClass rest
  | WriteOptions (Literal c h) :: rest =>
      toggles cfg (executingCssClass (mergeOptions cfg c h)) rest
  | _ :: rest => toggles cfg cssClass rest
  end.

(** The options the last assigned literal leaves, if one was assigned. *)
Fixpoint lastOptions (cfg : CommandOptions) (events : list Event)
  : option CommandOptions :=
  match events with
  | [] => None
  | WriteOptions (Literal c h) :: rest =>
      match lastOptions cfg rest with
      | Some later => Some later
      | None => Some (mergeOptions cfg c h)
      end
  | _ :: rest => lastOptions cfg rest
  end.

(** A creator whose [canExecute] throws. *)
Definition failing : JsFunction :=
  fun _ _ => Throw (Error "isValid failed").

Definition brokenCreator : CommandCreator :=
  {| host := JObject 1;
     execute := Demo.echo;
     canExecute := inl failing;
     params := JArray [JString "hero"];
     isAsync := Some false |}.

(** Object 7 is a Command without [isExecuting$], object 9 the creator
    of [Demo], object 11 the creator above. *)
Definition util : CommandUtil :=
  {| isCommand := fun v => match v with JObject 7 => true | _ => false end;
     isCommandCreator :=
       fun v => match v with
                | JObject 9 => Some Demo.removeHero
                | JObject 11 => Some brokenCreator
                | _ => None
                end;
     exposesIsExecuting := fun _ => false |}.

End Lifecycle.

(* ===================================================================== *)
(** ** Facts about the Command state machine *)
(* ===================================================================== *)

Module CommandFacts.

Import Command.
Local Open Scope nat_scope.

(** The proofs about single transitions go by cases on the fields the
    transition reads; the fields are split first, so that each case
    computes. *)
Ltac split_command c :=
  destruct c as [ex allow async ph g n busy can];
  destruct ph, async, busy, allow, g, can;
  repeat match goal with
         | H : _ |- _ => progress (cbn in H)
         end;
  try discriminate.

Ltac use_premises :=
  repeat match goal with
         | H : ?a = ?a -> _ |- _ => specialize (H eq_refl)
         | H : true = false -> _ |- _ => clear H
         | H : false = true -> _ |- _ => clear H
         | H : Created = Subscribed -> _ |- _ => clear H
         | H : TornDown = Subscribed -> _ |- _ => clear H
         end.

Ltac close_case :=
  cbn in *; use_premises;
  try (split; cbn; intros);
  repeat match goal with
         | H : ?P, H' : ?P -> _ |- _ => specialize (H' H)
         end;
  cbn in *; try discriminate; try congruence; try lia; auto.

(** The spec's scenario of section 8: gate true, asynchronous, no
    concurrency; subscribe, execute, execute again, resolve. *)
Example scenario_invocations :
  invocations (trace (run [Subscribe; Execute []; Execute []; Settle Succeeded]
                          (construct (Constant true) false true))) = [[]].
Proof. reflexivity. Qed.

Example scenario_isExecuting :
  isExecutingValues
    (trace (run [Subscribe; Execute []; Execute []; Settle Succeeded]
                (construct (Constant true) false true)))
  = [false; true; false].
Proof. reflexivity. Qed.

Example scenario_canExecute :
  canExecuteValues
    (trace (run [Subscribe; Execute []; Execute []; Settle Succeeded]
                (construct (Constant true) false true)))
  = [true; false; true].
Proof. reflexivity. Qed.

(** No transition of the model throws. *)
Lemma step_returns (e : Event) (c : Command) : result (step e c) = Ok tt.
Proof.
  split_command c;
    destruct e as [|args|[|]|b|]; try reflexivity;
    try (destruct n as [|[|n]]; reflexivity);
    destruct ex, b; reflexivity.
Qed.

Lemma run_cons_state (e : Event) (rest : list Event) (c : Command) :
  state (run (e :: rest) c) = state (run rest (state (step e c))).
Proof.
  simpl. unfold bindM at 1. rewrite step_returns. reflexivity.
Qed.

Lemma run_cons_trace (e : Event) (rest : list Event) (c : Command) :
  trace (run (e :: rest) c)
  = trace (step e c) ++ trace (run rest (state (step e c))).
Proof.
  simpl. unfold bindM at 1. rewrite step_returns. reflexivity.
Qed.

Lemma run_returns (events : list Event) (c : Command) :
  result (run events c) = Ok tt.
Proof.
  revert c. induction events as [|e rest IH]; intro c.
  - reflexivity.
  - simpl. unfold bindM at 1. rewrite step_returns. simpl. apply IH.
Qed.

(** The flags given at construction never change. *)
Lemma step_keeps_flags (e : Event) (c : Command) :
  allowConcurrentExecution (state (step e c)) = allowConcurrentExecution c
  /\ isAsync (state (step e c)) = isAsync c
  /\ executability (state (step e c)) = executability c.
Proof.
  split_command c;
    destruct e as [|args|[|]|b|]; try (cbn; auto; fail);
    try (destruct n as [|[|n]]; cbn; auto; fail);
    destruct ex, b; cbn; auto.
Qed.

Lemma run_keeps_flags (events : list Event) (c : Command) :
  allowConcurrentExecution (state (run events c)) = allowConcurrentExecution c
  /\ isAsync (state (run events c)) = isAsync c
  /\ executability (state (run events c)) = executability c.
Proof.
  revert c. induction events as [|e rest IH]; intro c.
  - simpl. auto.
  - rewrite run_cons_state.
    destruct (IH (state (step e c))) as (Ha & Hb & Hc).
    destruct (step_keeps_flags e c) as (Ha' & Hb' & Hc').
    repeat split; congruence.
Qed.

Lemma construct_consistent (e : Executability) (allow async : bool) :
  consistent (construct e allow async).
Proof.
  split; simpl; auto. discriminate.
Qed.

Lemma step_consistent (e : Event) (c : Command) :
  consistent c -> consistent (state (step e c)).
Proof.
  intros [Hb Hs Hx Hp].
  split_command c; use_premises;
    destruct n as [|[|n]]; try discriminate; try lia;
    destruct e as [|args|[|]|b|]; try (close_case; fail);
    destruct ex, b; close_case.
Qed.

Lemma run_consistent (events : list Event) (c : Command) :
  consistent c -> consistent (state (run events c)).
Proof.
  revert c. induction events as [|e rest IH]; intros c Hc.
  - exact Hc.
  - rewrite run_cons_state. apply IH, step_consistent, Hc.
Qed.

(** Every value a transition pushes on [canExecute] is the derived value
    of the state the transition leaves. *)
Lemma step_pushes_derived (e : Event) (c : Command) (b : bool) :
  In b (canExecuteValues (trace (step e c))) ->
  b = derived (state (step e c)).
Proof.
  split_command c;
    destruct e as [|args|[|]|v|]; try (cbn; intuition congruence);
    try (destruct n as [|[|n]]; cbn; intuition congruence);
    destruct ex, v; cbn; intuition congruence.
Qed.

Lemma isExecutingValues_app (xs ys : list Signal) :
  isExecutingValues (xs ++ ys) = isExecutingValues xs ++ isExecutingValues ys.
Proof.
  induction xs as [|[b|b|args|] rest IH]; simpl; congruence.
Qed.

Lemma invocations_app (xs ys : list Signal) :
  invocations (xs ++ ys) = invocations xs ++ invocations ys.
Proof.
  induction xs as [|[b|b|args|] rest IH]; simpl; congruence.
Qed.

(** A call that finds the flag up, on an asynchronous Command without
    concurrency, changes nothing and shows nothing. *)
Lemma execute_ignored (c : Command) (args : list JsValue) :
  isAsync c = true -> allowConcurrentExecution c = false ->
  isExecuting c = true ->
  execute args c = mkOutcome (Ok tt) c [].
Proof.
  intros Ha Hx Hb. split_command c; reflexivity.
Qed.

Lemma executes_ignored (c : Command) (calls : list (list JsValue)) :
  isAsync c = true -> allowConcurrentExecution c = false ->
  isExecuting c = true ->
  run (map Execute calls) c = mkOutcome (Ok tt) c [].
Proof.
  intros Ha Hx Hb. induction calls as [|args rest IH].
  - reflexivity.
  - simpl. unfold bindM. rewrite execute_ignored by assumption.
    simpl. rewrite IH. reflexivity.
Qed.

(** Only a settlement lowers the flag; while it is up no other
    transition invokes the action. *)
Lemma step_keeps_busy (e : Event) (c : Command) :
  isSettle e = false ->
  isAsync c = true -> allowConcurrentExecution c = false ->
  isExecuting c = true ->
  isExecuting (state (step e c)) = true
  /\ invocations (trace (step e c)) = [].
Proof.
  intros He Ha Hx Hb.
  split_command c;
    destruct e as [|args|how|b|]; try discriminate; try (cbn; auto; fail);
    destruct ex, b; cbn; auto.
Qed.

Lemma run_keeps_busy (events : list Event) (c : Command) :
  forallb (fun e => negb (isSettle e)) events = true ->
  isAsync c = true -> allowConcurrentExecution c = false ->
  isExecuting c = true ->
  isExecuting (state (run events c)) = true
  /\ invocations (trace (run events c)) = [].
Proof.
  revert c. induction events as [|e rest IH]; intros c Hall Ha Hx Hb.
  - simpl. auto.
  - simpl in Hall. apply andb_true_iff in Hall as [He Hrest].
    apply negb_true_iff in He.
    destruct (step_keeps_busy e c He Ha Hx Hb) as [Hb' Hi].
    destruct (step_keeps_flags e c) as (Hx' & Ha' & _).
    rewrite run_cons_state, run_cons_trace, invocations_app, Hi.
    apply IH; congruence.
Qed.

(** A synchronous Command: the flag stays down through every transition
    and is never pushed up. *)
Lemma step_sync (e : Event) (c : Command) :
  isAsync c = false -> isExecuting c = false -> pending c = 0 ->
  isExecuting (state (step e c)) = false
  /\ pending (state (step e c)) = 0
  /\ Forall (fun b => b = false) (isExecutingValues (trace (step e c))).
Proof.
  intros Ha Hb Hn.
  split_command c; subst n;
    destruct e as [|args|how|b|]; try (cbn; auto; fail);
    destruct ex, b; cbn; auto.
Qed.

Lemma run_sync (events : list Event) (c : Command) :
  isAsync c = false -> isExecuting c = false -> pending c = 0 ->
  isExecuting (state (run events c)) = false
  /\ Forall (fun b => b = false) (isExecutingValues (trace (run events c))).
Proof.
  revert c. induction events as [|e rest IH]; intros c Ha Hb Hn.
  - simpl. auto.
  - destruct (step_sync e c Ha Hb Hn) as (Hb' & Hn' & Hall).
    destruct (step_keeps_flags e c) as (_ & Ha' & _).
    rewrite run_cons_state, run_cons_trace, isExecutingValues_app.
    destruct (IH (state (step e c))) as [Hb'' Hall'']; try congruence.
    split; [assumption|]. apply Forall_app. auto.
Qed.

(** A settlement takes one invocation off the count, however it ends. *)
Lemma settle_counts_down (how : Settlement) (c : Command) (left : nat) :
  phase c = Subscribed -> pending c = S left ->
  phase (state (settle how c)) = Subscribed
  /\ pending (state (settle how c)) = left.
Proof.
  intros Hp Hn.
  split_command c; subst n; destruct left, how; cbn; auto.
Qed.

Lemma settle_either_way (how : Settlement) (c : Command) :
  state (settle how c) = state (settle Succeeded c).
Proof.
  split_command c; destruct n as [|[|n]], how; reflexivity.
Qed.

(** Once everything pending has settled, with whatever outcomes, the flag
    is down. *)
Lemma drained (outcomes : list Settlement) (c : Command) :
  consistent c -> phase c = Subscribed ->
  List.length outcomes = pending c ->
  isExecuting (state (run (map Settle outcomes) c)) = false
  /\ pending (state (run (map Settle outcomes) c)) = 0.
Proof.
  revert c. induction outcomes as [|how rest IH]; intros c Hc Hp Hn.
  - simpl in *. rewrite (busy_iff_pending c Hc), <- Hn. auto.
  - simpl map. rewrite run_cons_state. simpl in Hn.
    destruct (settle_counts_down how c (List.length rest) Hp (eq_sym Hn))
      as [Hp' Hn'].
    apply IH; auto.
    apply (step_consistent (Settle how)), Hc.
Qed.

(** From Idle, an invocation that fails brings the Command back to the
    very state it started from. *)
Lemma fail_round_trip (c : Command) (args : list JsValue) :
  consistent c -> phase c = Subscribed -> isAsync c = true ->
  isExecuting c = false ->
  isExecuting (state (run [Execute args] c)) = true
  /\ state (run [Execute args; Settle Failed] c) = c.
Proof.
  intros [Hb Hs Hx Hpub] Hp Ha Hi.
  split_command c; use_premises;
    destruct n; try discriminate; cbn; auto.
Qed.

(** After [unsubscribe] nothing a Command goes through shows anything. *)
Lemma step_torn_down (e : Event) (c : Command) :
  phase c = TornDown ->
  phase (state (step e c)) = TornDown /\ trace (step e c) = [].
Proof.
  intro Hp.
  split_command c;
    destruct e as [|args|how|b|]; try (cbn; auto; fail);
    destruct ex; cbn; auto.
Qed.

Lemma run_torn_down (events : list Event) (c : Command) :
  phase c = TornDown ->
  trace (run events c) = [].
Proof.
  revert c. induction events as [|e rest IH]; intros c Hp.
  - reflexivity.
  - destruct (step_torn_down e c Hp) as [Hp' Ht].
    rewrite run_cons_trace, Ht. simpl. apply IH, Hp'.
Qed.

Lemma execute_torn_down (c : Command) (args : list JsValue) :
  phase c = TornDown -> execute args c = mkOutcome (Ok tt) c [].
Proof.
  unfold execute. intros ->. reflexivity.
Qed.

(** C1.  In every state a Command reaches from its construction, through
    any sequence of subscribe, execute, settlement, gate update and
    unsubscribe, the [canExecute] signal of a subscribed Command holds
    gate AND (allowConcurrentExecution OR NOT isExecuting); and every
    value a further transition pushes on the signal is that conjunction
    evaluated in the state the transition leaves. *)
Theorem canExecute_is_gate_and_free
        (e : Executability) (allow async : bool) (events : list Event)
        (next : Event) (pushed : bool) :
  let c := state (run events (construct e allow async)) in
  let c' := state (step next c) in
  (phase c = Subscribed ->
   canExecute c = gate c && (allow || negb (isExecuting c)))
  /\ (In pushed (canExecuteValues (trace (step next c))) ->
      pushed = gate c' && (allow || negb (isExecuting c'))).
Proof.
  intros c c'.
  assert (Hc : consistent c)
    by apply run_consistent, construct_consistent.
  assert (Ha : allowConcurrentExecution c = allow)
    by apply (run_keeps_flags events (construct e allow async)).
  assert (Ha' : allowConcurrentExecution c' = allow).
  { unfold c'. destruct (step_keeps_flags next c) as [-> _]. exact Ha. }
  split.
  - intro Hp. rewrite (published c Hc Hp). unfold derived. now rewrite Ha.
  - intro Hin. rewrite (step_pushes_derived next c pushed Hin).
    fold c'. unfold derived. now rewrite Ha'.
Qed.

Lemma canExecute_is_gate_and_free_witness :
  canExecute Demo.inFlight
  = gate Demo.inFlight && (false || negb (isExecuting Demo.inFlight))
  /\ canExecute Demo.inFlight = false.
Proof.
  split.
  - apply (proj1 (canExecute_is_gate_and_free
                    (Constant true) false true
                    [Subscribe; Execute []] (Settle Succeeded) true)).
    reflexivity.
  - reflexivity.
Defined.

(** C2.  On an asynchronous Command without concurrency whose flag is
    up, calls of [execute] return without throwing, leave the state as it
    is and show nothing to any observer; and through any sequence of
    events that contains no settlement the flag stays up and the action is
    not invoked. *)
Theorem execute_while_executing_is_ignored
        (c : Command) (calls : list (list JsValue)) (events : list Event) :
  isAsync c = true ->
  allowConcurrentExecution c = false ->
  isExecuting c = true ->
  run (map Execute calls) c = mkOutcome (Ok tt) c []
  /\ (forallb (fun e => negb (isSettle e)) events = true ->
      isExecuting (state (run events c)) = true
      /\ invocations (trace (run events c)) = []).
Proof.
  intros Ha Hx Hb. split.
  - apply executes_ignored; assumption.
  - intro Hall. apply run_keeps_busy; assumption.
Qed.

Lemma execute_while_executing_is_ignored_witness :
  run (map Execute [[]; [JNull]]) Demo.inFlight
  = mkOutcome (Ok tt) Demo.inFlight []
  /\ isExecuting
       (state (run [Execute []; GateNext false; Unsubscribe] Demo.inFlight))
     = true.
Proof.
  destruct (execute_while_executing_is_ignored
              Demo.inFlight [[]; [JNull]]
              [Execute []; GateNext false; Unsubscribe]
              eq_refl eq_refl eq_refl) as [Hcalls Hevents].
  split.
  - exact Hcalls.
  - exact (proj1 (Hevents eq_refl)).
Defined.

(** C3.  A Command constructed with [isAsync = false] has its flag down
    in every state it reaches, every value ever pushed on [isExecuting]
    is false, and [execute] on the subscribed Command invokes the action
    at once with the arguments given and leaves the state as it is. *)
Theorem synchronous_never_executing
        (e : Executability) (allow : bool) (events : list Event)
        (args : list JsValue) :
  let o := run events (construct e allow false) in
  isExecuting (state o) = false
  /\ Forall (fun b => b = false) (isExecutingValues (trace o))
  /\ (phase (state o) = Subscribed ->
      execute args (state o) = mkOutcome (Ok tt) (state o) [Invoke args]).
Proof.
  intro o.
  destruct (run_sync events (construct e allow false)
                     eq_refl eq_refl eq_refl) as [Hb Hall].
  repeat split; try assumption.
  intro Hp.
  assert (Ha : isAsync (state o) = false)
    by apply (run_keeps_flags events (construct e allow false)).
  unfold execute. rewrite Hp, Ha. reflexivity.
Qed.

Lemma synchronous_never_executing_witness :
  isExecuting
    (state (run [Subscribe; Execute []; Execute []]
                (construct Omitted false false))) = false
  /\ invocations
       (trace (run [Subscribe; Execute [JNull]; Execute []]
                   (construct Omitted false false))) = [[JNull]; []].
Proof.
  split.
  - exact (proj1 (synchronous_never_executing
                    Omitted false [Subscribe; Execute []; Execute []] [])).
  - reflexivity.
Defined.

(** C4.  For a subscribed asynchronous Command in any state it can reach:
    a settlement leaves the same state whether the action failed or
    succeeded; once every pending invocation has settled, with whatever
    outcomes, the flag is down; and from Idle, an invocation that fails
    raises the flag and its settlement brings back the very state the
    Command was in, so that what follows is what follows from Idle. *)
Theorem failure_releases_flag
        (e : Executability) (allow : bool) (events : list Event)
        (args : list JsValue) (outcomes : list Settlement) :
  let c := state (run events (construct e allow true)) in
  phase c = Subscribed ->
  (forall how, state (settle how c) = state (settle Succeeded c))
  /\ (List.length outcomes = pending c ->
      isExecuting (state (run (map Settle outcomes) c)) = false)
  /\ (isExecuting c = false ->
      isExecuting (state (run [Execute args] c)) = true
      /\ state (run [Execute args; Settle Failed] c) = c).
Proof.
  intros c Hp.
  assert (Hc : consistent c)
    by apply run_consistent, construct_consistent.
  assert (Ha : isAsync c = true)
    by apply (run_keeps_flags events (construct e allow true)).
  repeat split.
  - intro how. apply settle_either_way.
  - intro Hn. apply drained; assumption.
  - apply fail_round_trip; assumption.
  - apply fail_round_trip; assumption.
Qed.

Lemma failure_releases_flag_witness :
  isExecuting
    (state (run [Execute []; Settle Failed]
                (state (run [Subscribe] (construct (Stream true) false true)))))
  = false.
Proof.
  destruct (failure_releases_flag (Stream true) false [Subscribe] []
              [] eq_refl) as (_ & _ & Hidle).
  destruct (Hidle eq_refl) as [_ Hback].
  rewrite Hback. reflexivity.
Defined.

(** The failing run of section 8: the flag goes up, comes down, and the
    failure is reported. *)
Example failing_action_trace :
  trace (run [Subscribe; Execute []; Settle Failed]
             (construct (Constant true) false true))
  = [IsExecuting false; CanExecute true;
     IsExecuting true; CanExecute false; Invoke [];
     IsExecuting false; CanExecute true; ReportFailure].
Proof. reflexivity. Qed.

End CommandFacts.

(* ===================================================================== *)
(** ** Facts about methods in general *)
(* ===================================================================== *)

(** Sequencing, once the first method is known to return, and by cases on
    how it ends. *)

Section MethodFacts.
Context {S E A B : Type}.

Lemma bindM_returns (m : M S E A) (k : A -> M S E B) (s s' : S) (a : A)
      (t : list E) :
  m s = mkOutcome (Ok a) s' t ->
  bindM m k s
  = mkOutcome (result (k a s')) (state (k a s')) (t ++ trace (k a s')).
Proof.
  intro H. unfold bindM. rewrite H. reflexivity.
Qed.

Lemma bindM_cases (m : M S E A) (k : A -> M S E B) (s : S) :
  bindM m k s
  = match result (m s) with
    | Ok a =>
        mkOutcome (result (k a (state (m s)))) (state (k a (state (m s))))
                  (trace (m s) ++ trace (k a (state (m s))))
    | Throw e => mkOutcome (Throw e) (state (m s)) (trace (m s))
    end.
Proof.
  reflexivity.
Qed.

End MethodFacts.

(* ===================================================================== *)
(** ** Facts about the directive *)
(* ===================================================================== *)

Module DirectiveFacts.

Import Directive.

(** Reading a field off an outcome or off an updated directive. *)
Ltac fields :=
  cbn [result state trace
       config commandOrCreator commandParams _command _disabled
       _attrDisabled _commandOptions optionsOpen canExecuteOpen
       isExecutingOpen
       with_commandParams with_command with_disabled with_attrDisabled
       with_subscriptions] in *.

(** The setter of [attrDisabled] never needs more than one level of
    re-entrance: it returns, and touches no field but [_attrDisabled$]. *)
Lemma set_attrDisabled_upto_runs (depth : nat) (value : option bool)
      (d : CommandDirective) :
  exists x t,
    set_attrDisabled_upto (S depth) value d
    = mkOutcome (Ok tt) (with_attrDisabled x d) t.
Proof.
  destruct d as [cfg input ps cmd dis attr [cls hd] oo co eo].
  destruct value as [[|]|], attr as [[|]|], dis, oo, hd, depth;
    cbn; eexists; eexists; reflexivity.
Qed.

Lemma set_attrDisabled_depth (depth : nat) (value : option bool)
      (d : CommandDirective) :
  set_attrDisabled_upto (S depth) value d = set_attrDisabled value d.
Proof.
  destruct depth; [reflexivity|].
  destruct d as [cfg input ps cmd dis attr [cls hd] oo co eo].
  destruct value as [[|]|], attr as [[|]|], dis, oo, hd; reflexivity.
Qed.

(** [set disabled(value)] returns, leaves [disabled] at [value], and
    besides touches [_attrDisabled$] only. *)
Lemma set_disabled_runs (value : bool) (d : CommandDirective) :
  exists x t,
    set_disabled value d
    = mkOutcome (Ok tt) (with_attrDisabled x (with_disabled value d)) t
    /\ (t = [] \/ t = [ConsoleError (Some value)]).
Proof.
  destruct d as [cfg input ps cmd dis attr [cls hd] oo co eo].
  destruct value, attr as [[|]|], dis, oo, hd;
    cbn; eexists; eexists; split; try reflexivity; auto.
Qed.

(** On a directive fresh from its constructor the first assignment of
    [disabled] reaches the [attr.disabled] binding. *)
Lemma set_disabled_fresh (value : bool) (d : CommandDirective) :
  _disabled d = negb value ->
  _attrDisabled (state (set_disabled value d)) = Some value.
Proof.
  destruct d as [cfg input ps cmd dis attr [cls hd] oo co eo]. simpl.
  intros ->.
  destruct value, attr as [[|]|], oo, hd; reflexivity.
Qed.

Lemma subscribeOptions_runs (d : CommandDirective) :
  exists x t,
    subscribeOptions d
    = mkOutcome (Ok tt)
        (with_attrDisabled x
           (with_subscriptions true (canExecuteOpen d) (isExecutingOpen d) d))
        t.
Proof.
  destruct d as [cfg input ps cmd dis attr [cls hd] oo co eo].
  destruct attr as [[|]|], dis, hd; cbn; eexists; eexists; reflexivity.
Qed.

Section WithUtil.
Context {U : CommandUtil}.

(** Lines 151-187 return, subscribe the Command first, and leave the
    [canExecute$] subscription open. *)
Lemma openSubscriptions_runs (c : ICommand) (d : CommandDirective) :
  exists x e t,
    openSubscriptions c d
    = mkOutcome (Ok tt)
        (with_subscriptions true true e (with_attrDisabled x d))
        (CommandSubscribe c :: t).
Proof.
  unfold openSubscriptions.
  destruct (subscribeOptions_runs d) as (x & t & Hs).
  rewrite (bindM_returns (emit (CommandSubscribe c)) _ d d tt
             [CommandSubscribe c] eq_refl).
  rewrite (bindM_returns _ _ _ _ _ _ Hs).
  destruct (hasIsExecuting c); cbn;
    eexists; eexists; eexists; reflexivity.
Qed.

(** The two ways [resolveCommand] throws (lines 126 and 148). *)
Lemma resolveCommand_undefined (d : CommandDirective) :
  truthy (commandOrCreator d) = false ->
  resolveCommand d
  = mkOutcome (Throw (Error "ssvCommand: [ssvCommand] should be defined!"))
      d [].
Proof.
  intro H. unfold resolveCommand, bindM, gets. simpl. rewrite H. reflexivity.
Qed.

Lemma resolveCommand_unrecognised (d : CommandDirective) :
  truthy (commandOrCreator d) = true ->
  isCommand (commandOrCreator d) = false ->
  isCommandCreator (commandOrCreator d) = None ->
  resolveCommand d
  = mkOutcome
      (Throw (Error "ssvCommand: [ssvCommand] is not defined properly!"))
      d [].
Proof.
  intros Ht Hc Hk. unfold resolveCommand, bindM, gets. simpl.
  rewrite Ht, Hc, Hk. reflexivity.
Qed.

(** Line 128. *)
Lemma resolveCommand_given (d : CommandDirective) :
  truthy (commandOrCreator d) = true ->
  isCommand (commandOrCreator d) = true ->
  resolveCommand d
  = mkOutcome (Ok (Given (commandOrCreator d)))
      (with_command (Given (commandOrCreator d)) d) [].
Proof.
  intros Ht Hc. unfold resolveCommand, bindM, gets. simpl.
  rewrite Ht, Hc. reflexivity.
Qed.

(** Lines 130-146, when [canExecute] is not a function, or is one that
    returns. *)
Lemma resolveCommand_creator (d : CommandDirective) (creator : CommandCreator)
      (g : JsValue) :
  truthy (commandOrCreator d) = true ->
  isCommand (commandOrCreator d) = false ->
  isCommandCreator (commandOrCreator d) = Some creator ->
  match canExecute creator with
  | inl f => f (host creator) [js_or (commandParams d) (params creator)]
  | inr v => Ok v
  end = Ok g ->
  let made := NewCommand (bind (execute creator) (host creator) []) g
                         (asyncFlag (isAsync creator)) in
  resolveCommand d
  = mkOutcome (Ok made)
      (with_command made
         (with_commandParams (js_or (commandParams d) (params creator)) d))
      [].
Proof.
  intros Ht Hc Hk Hg. unfold resolveCommand, bindM, gets. simpl.
  rewrite Ht, Hc, Hk. simpl.
  destruct (canExecute creator) as [f|v].
  - unfold lift, bind. simpl. rewrite Hg. reflexivity.
  - injection Hg as ->. reflexivity.
Qed.

(** Lines 136-140, when the [canExecute] function throws: the exception
    leaves [ngOnInit], after [commandParams] was assigned. *)
Lemma resolveCommand_gate_throws (d : CommandDirective)
      (creator : CommandCreator) (f : JsFunction) (e : JsError) :
  truthy (commandOrCreator d) = true ->
  isCommand (commandOrCreator d) = false ->
  isCommandCreator (commandOrCreator d) = Some creator ->
  canExecute creator = inl f ->
  f (host creator) [js_or (commandParams d) (params creator)] = Throw e ->
  resolveCommand d
  = mkOutcome (Throw e)
      (with_commandParams (js_or (commandParams d) (params creator)) d) [].
Proof.
  intros Ht Hc Hk Hf He. unfold resolveCommand, bindM, gets. simpl.
  rewrite Ht, Hc, Hk. simpl. rewrite Hf.
  unfold lift, bind. simpl. rewrite He. reflexivity.
Qed.

(** Resolving the input calls nothing on the collaborators and leaves
    [disabled] alone. *)
Lemma resolveCommand_silent (d : CommandDirective) :
  trace (resolveCommand d) = []
  /\ _disabled (state (resolveCommand d)) = _disabled d.
Proof.
  unfold resolveCommand, bindM, gets, modify, throw, ret, lift; simpl.
  destruct (truthy (commandOrCreator d)); simpl; auto.
  destruct (isCommand (commandOrCreator d)); simpl; auto.
  destruct (isCommandCreator (commandOrCreator d)) as [cc|]; simpl; auto.
  destruct (canExecute cc) as [f|v]; simpl; auto.
  destruct (bind f (host cc) _ JUndefined []); simpl; auto.
Qed.

(** [ngOnInit] stage by stage: the assignment of line 123, then the
    resolution of the input, then the subscriptions. *)
Lemma ngOnInit_stages (d : CommandDirective) :
  exists x t,
    (t = [] \/ t = [ConsoleError (Some true)])
    /\ set_disabled true d
       = mkOutcome (Ok tt) (with_attrDisabled x (with_disabled true d)) t
    /\ ngOnInit d
       = let r := resolveCommand (with_attrDisabled x (with_disabled true d)) in
         match result r with
         | Ok c =>
             let o := openSubscriptions c (state r) in
             mkOutcome (result o) (state o) (t ++ trace r ++ trace o)
         | Throw e => mkOutcome (Throw e) (state r) (t ++ trace r)
         end.
Proof.
  destruct (set_disabled_runs true d) as (x & t & Hs & Ht).
  exists x, t. split; [exact Ht|]. split; [exact Hs|].
  unfold ngOnInit. rewrite (bindM_returns _ _ _ _ _ _ Hs).
  rewrite bindM_cases. cbv zeta.
  destruct (result (resolveCommand (with_attrDisabled x (with_disabled true d))));
    reflexivity.
Qed.

(** The four ways through [ngOnInit], each with the outcome it leaves. *)
Lemma ngOnInit_rejects (d : CommandDirective) (message : string) :
  (forall d', commandOrCreator d' = commandOrCreator d ->
              resolveCommand d' = mkOutcome (Throw (Error message)) d' []) ->
  exists x t,
    ngOnInit d
    = mkOutcome (Throw (Error message))
        (with_attrDisabled x (with_disabled true d)) t
    /\ (t = [] \/ t = [ConsoleError (Some true)]).
Proof.
  intro H.
  destruct (ngOnInit_stages d) as (x & t & Ht & _ & ->).
  exists x, t. split; [|exact Ht].
  cbv zeta.
  rewrite (H (with_attrDisabled x (with_disabled true d)) eq_refl).
  fields. now rewrite app_nil_r.
Qed.

Lemma ngOnInit_given (d : CommandDirective) :
  truthy (commandOrCreator d) = true ->
  isCommand (commandOrCreator d) = true ->
  exists x y e t later,
    ngOnInit d
    = mkOutcome (Ok tt)
        (with_subscriptions true true e
           (with_attrDisabled y
              (with_command (Given (commandOrCreator d))
                 (with_attrDisabled x (with_disabled true d)))))
        (t ++ CommandSubscribe (Given (commandOrCreator d)) :: later)
    /\ t = trace (set_disabled true d).
Proof.
  intros Ht Hc.
  destruct (ngOnInit_stages d) as (x & t & _ & Hs & ->).
  pose proof (resolveCommand_given
                (with_attrDisabled x (with_disabled true d)) Ht Hc) as Hr.
  cbv zeta. rewrite Hr. fields.
  match goal with
  | |- context [openSubscriptions ?c ?s] =>
      destruct (openSubscriptions_runs c s) as (y & e & later & ->)
  end.
  fields. exists x, y, e, t, later. split; [reflexivity|].
  rewrite Hs. reflexivity.
Qed.

Lemma ngOnInit_creator (d : CommandDirective) (creator : CommandCreator)
      (g : JsValue) :
  truthy (commandOrCreator d) = true ->
  isCommand (commandOrCreator d) = false ->
  isCommandCreator (commandOrCreator d) = Some creator ->
  match canExecute creator with
  | inl f => f (host creator) [js_or (commandParams d) (params creator)]
  | inr v => Ok v
  end = Ok g ->
  let made := NewCommand (bind (execute creator) (host creator) []) g
                         (asyncFlag (isAsync creator)) in
  exists x y e t later,
    ngOnInit d
    = mkOutcome (Ok tt)
        (with_subscriptions true true e
           (with_attrDisabled y
              (with_command made
                 (with_commandParams
                    (js_or (commandParams d) (params creator))
                    (with_attrDisabled x (with_disabled true d))))))
        (t ++ CommandSubscribe made :: later)
    /\ t = trace (set_disabled true d).
Proof.
  intros Ht Hc Hk Hg made.
  destruct (ngOnInit_stages d) as (x & t & _ & Hs & ->).
  pose proof (resolveCommand_creator
                (with_attrDisabled x (with_disabled true d))
                creator g Ht Hc Hk Hg) as Hr.
  cbv zeta in Hr. fields. cbv zeta. rewrite Hr. fields.
  match goal with
  | |- context [openSubscriptions ?c ?s] =>
      destruct (openSubscriptions_runs c s) as (y & e & later & ->)
  end.
  fields. exists x, y, e, t, later. split; [reflexivity|].
  rewrite Hs. reflexivity.
Qed.

Lemma ngOnInit_gate_throws (d : CommandDirective) (creator : CommandCreator)
      (f : JsFunction) (e : JsError) :
  truthy (commandOrCreator d) = true ->
  isCommand (commandOrCreator d) = false ->
  isCommandCreator (commandOrCreator d) = Some creator ->
  canExecute creator = inl f ->
  f (host creator) [js_or (commandParams d) (params creator)] = Throw e ->
  exists x t,
    ngOnInit d
    = mkOutcome (Throw e)
        (with_commandParams (js_or (commandParams d) (params creator))
           (with_attrDisabled x (with_disabled true d)))
        t.
Proof.
  intros Ht Hc Hk Hf He.
  destruct (ngOnInit_stages d) as (x & t & _ & _ & ->).
  pose proof (resolveCommand_gate_throws
                (with_attrDisabled x (with_disabled true d))
                creator f e Ht Hc Hk Hf He) as Hr.
  fields. cbv zeta. rewrite Hr. fields.
  exists x. eexists. reflexivity.
Qed.

(** Whatever [ngOnInit] does afterwards, and even when it throws,
    [disabled] is true when it is done. *)
Lemma ngOnInit_disables (d : CommandDirective) :
  _disabled (state (ngOnInit d)) = true.
Proof.
  destruct (ngOnInit_stages d) as (x & t & _ & _ & ->).
  set (d1 := with_attrDisabled x (with_disabled true d)).
  assert (Hr : _disabled (state (resolveCommand d1)) = true)
    by (rewrite (proj2 (resolveCommand_silent d1)); reflexivity).
  cbv zeta. destruct (result (resolveCommand d1)) as [c|e]; fields; auto.
  destruct (openSubscriptions_runs c (state (resolveCommand d1)))
    as (y & e & t' & ->).
  fields. exact Hr.
Qed.

(** A [ngOnInit] that returns has subscribed the Command, after the
    assignment of line 123, and holds the [canExecute$] subscription. *)
Lemma ngOnInit_returned (d : CommandDirective) :
  result (ngOnInit d) = Ok tt ->
  canExecuteOpen (state (ngOnInit d)) = true
  /\ exists c later,
       trace (ngOnInit d)
       = trace (set_disabled true d) ++ CommandSubscribe c :: later.
Proof.
  destruct (ngOnInit_stages d) as (x & t & _ & Hs & ->).
  rewrite Hs. cbv zeta. fields.
  pose proof (proj1 (resolveCommand_silent
                       (with_attrDisabled x (with_disabled true d)))) as Ht2.
  destruct (resolveCommand (with_attrDisabled x (with_disabled true d)))
    as [[c|e] d2 t2]; fields; [|discriminate].
  intros _.
  destruct (openSubscriptions_runs c d2) as (y & e & t' & ->).
  fields. split; [reflexivity|].
  subst t2. exists c, t'. reflexivity.
Qed.

End WithUtil.

(** Turns of an initialised directive. *)
Lemma onCanExecute_runs (b : bool) (d : CommandDirective) :
  canExecuteOpen d = true ->
  _disabled (state (onCanExecute b d)) = negb b
  /\ canExecuteOpen (state (onCanExecute b d)) = true.
Proof.
  intro H. unfold onCanExecute.
  rewrite (bindM_returns (gets canExecuteOpen) _ d d true [])
    by (unfold gets; now rewrite H).
  destruct (set_disabled_runs (negb b) d) as (x & t & Hs & _).
  rewrite (bindM_returns _ _ _ _ _ _ Hs). simpl. auto.
Qed.

Lemma onIsExecuting_state (b : bool) (d : CommandDirective) :
  state (onIsExecuting b d) = d.
Proof.
  unfold onIsExecuting, bindM, gets. simpl.
  destruct (isExecutingOpen d), b; reflexivity.
Qed.

Lemma onClick_state (d : CommandDirective) :
  state (onClick d) = d.
Proof.
  unfold onClick, bindM, gets. simpl.
  destruct (_command d); reflexivity.
Qed.

Lemma after_mirrors (turns : list Turn) (d : CommandDirective) :
  canExecuteOpen d = true ->
  _disabled (after turns d)
  = match lastCanExecute turns with
    | Some b => negb b
    | None => _disabled d
    end.
Proof.
  revert d. induction turns as [|t rest IH]; intros d Hopen.
  - reflexivity.
  - change (after (t :: rest) d) with (after rest (state (turn t d))).
    destruct t as [b|b|]; simpl turn; simpl lastCanExecute.
    + destruct (onCanExecute_runs b d Hopen) as [Hd Ho].
      rewrite (IH _ Ho), Hd. destruct (lastCanExecute rest); reflexivity.
    + rewrite onIsExecuting_state. apply IH, Hopen.
    + rewrite onClick_state. apply IH, Hopen.
Qed.

Lemma lastCanExecute_in (turns : list Turn) (b : bool) :
  lastCanExecute turns = Some b -> In (CanExecuteNext b) turns.
Proof.
  induction turns as [|t rest IH]; simpl.
  - discriminate.
  - destruct t as [v|v|]; auto.
    destruct (lastCanExecute rest) as [later|].
    + intro H. right. apply IH, H.
    + intro H. injection H as ->. left. reflexivity.
Qed.

(** C6.  When the bound input is falsy ([undefined] in particular), or is
    neither a Command nor a command creator, [ngOnInit] throws an
    [Error] naming the fault; no Command is stored and none is
    subscribed. *)
Theorem init_fails_fast {U : CommandUtil} (d : CommandDirective) :
  truthy (commandOrCreator d) = false
  \/ (isCommand (commandOrCreator d) = false
      /\ isCommandCreator (commandOrCreator d) = None) ->
  result (ngOnInit d)
  = Throw (Error (if truthy (commandOrCreator d)
                  then "ssvCommand: [ssvCommand] is not defined properly!"
                  else "ssvCommand: [ssvCommand] should be defined!"))
  /\ _command (state (ngOnInit d)) = _command d
  /\ (forall c, ~ In (CommandSubscribe c) (trace (ngOnInit d))).
Proof.
  intro H.
  destruct (ngOnInit_rejects d
              (if truthy (commandOrCreator d)
               then "ssvCommand: [ssvCommand] is not defined properly!"
               else "ssvCommand: [ssvCommand] should be defined!"))
    as (x & t & -> & Ht).
  - intros d' Hsame.
    destruct (truthy (commandOrCreator d)) eqn:Htruthy.
    + destruct H as [H|[Hc Hk]]; [discriminate|].
      apply resolveCommand_unrecognised; rewrite Hsame; assumption.
    + apply resolveCommand_undefined; rewrite Hsame; assumption.
  - fields. repeat split.
    intros c Hin.
    destruct Ht as [-> | ->]; simpl in Hin; intuition discriminate.
Qed.

Lemma init_fails_fast_witness :
  result (@ngOnInit Demo.util Demo.unbound)
  = Throw (Error "ssvCommand: [ssvCommand] should be defined!")
  /\ result (@ngOnInit Demo.util
               (create Demo.options (JString "save") JUndefined))
     = Throw (Error "ssvCommand: [ssvCommand] is not defined properly!").
Proof.
  split.
  - apply (@init_fails_fast Demo.util Demo.unbound). left. reflexivity.
  - apply (@init_fails_fast Demo.util
             (create Demo.options (JString "save") JUndefined)).
    right. split; reflexivity.
Defined.

(** C7.  A click on a directive that holds a Command calls that
    Command's [execute] once and does nothing else; the arguments are the
    elements of [commandParams] when it is an array, and [commandParams]
    itself, as the only argument, when it is anything else
    ([undefined] included). *)
Theorem click_passes_params_through (d : CommandDirective) (c : ICommand) :
  _command d = Some c ->
  onClick d
  = mkOutcome (Ok tt) d [CommandExecute c (clickArguments (commandParams d))]
  /\ (forall items,
         commandParams d = JArray items ->
         clickArguments (commandParams d) = items)
  /\ (isArray (commandParams d) = false ->
      clickArguments (commandParams d) = [commandParams d]).
Proof.
  intro H. repeat split.
  - unfold onClick, bindM, gets. simpl. rewrite H. reflexivity.
  - intros items ->. reflexivity.
  - destruct (commandParams d); simpl; intro Ha;
      discriminate || reflexivity.
Qed.

Lemma click_passes_params_through_witness :
  trace (onClick (state (@ngOnInit Demo.util Demo.withCommand)))
  = [CommandExecute (Given (JObject 7)) [JString "a"; JString "b"]].
Proof.
  destruct (click_passes_params_through
              (state (@ngOnInit Demo.util Demo.withCommand))
              (Given (JObject 7)) eq_refl) as (Hclick & _ & _).
  rewrite Hclick. reflexivity.
Defined.

(** C8, as the code has it.  For a creator the directive builds
    [new Command(execFn, canExec, isAsync)] where [execFn] is the
    creator's [execute] bound to the host and to nothing else (called
    with any receiver and arguments it is [execute] on the host with just
    those arguments); [canExec] is what the creator's [canExecute]
    returns when called on the host with the effective params as its one
    argument, if it is a function, and [canExecute] itself otherwise; and
    [isAsync] is true unless the creator says [false]. *)
Theorem creator_is_a_factory {U : CommandUtil} (d : CommandDirective)
        (creator : CommandCreator) (g : JsValue) :
  truthy (commandOrCreator d) = true ->
  isCommand (commandOrCreator d) = false ->
  isCommandCreator (commandOrCreator d) = Some creator ->
  match canExecute creator with
  | inl f => f (host creator) [js_or (commandParams d) (params creator)]
  | inr v => Ok v
  end = Ok g ->
  result (ngOnInit d) = Ok tt
  /\ _command (state (ngOnInit d))
     = Some (NewCommand (bind (execute creator) (host creator) []) g
                        (asyncFlag (isAsync creator)))
  /\ (forall this args,
         bind (execute creator) (host creator) [] this args
         = execute creator (host creator) args).
Proof.
  intros Ht Hc Hk Hg.
  destruct (ngOnInit_creator d creator g Ht Hc Hk Hg)
    as (x & y & e & t & later & -> & _).
  fields. repeat split.
Qed.

Lemma creator_is_a_factory_witness :
  _command (state (@ngOnInit Demo.util Demo.withCreator))
  = Some (NewCommand
            (bind (execute Demo.removeHero) (host Demo.removeHero) [])
            (JArray [JObject 1; JArray [JString "hero"; JNumber 1337]])
            true).
Proof.
  apply (@creator_is_a_factory Demo.util Demo.withCreator Demo.removeHero
           (JArray [JObject 1; JArray [JString "hero"; JNumber 1337]])
           eq_refl eq_refl eq_refl eq_refl).
Defined.

(** C8 as stated fails: the action the directive hands to the Command
    does not carry the creator's params.  Called with no argument it runs
    [execute] on the host alone, where the curried action would pass the
    params, spread or as one value. *)
Lemma creator_action_is_not_curried :
  exists execFn g a,
    _command (state (@ngOnInit Demo.util Demo.withCreator))
    = Some (NewCommand execFn g a)
    /\ execFn JUndefined [] = Ok (JArray [JObject 1])
    /\ execFn JUndefined []
       <> curriedAction Demo.removeHero
            (clickArguments (params Demo.removeHero)) JUndefined []
    /\ execFn JUndefined []
       <> curriedAction Demo.removeHero [params Demo.removeHero]
            JUndefined [].
Proof.
  eexists. eexists. eexists. split; [reflexivity|].
  split; [reflexivity|]. split; discriminate.
Qed.

(** [asyncFlag] value by value. *)
Lemma asyncFlag_true_iff (a : option bool) :
  asyncFlag a = true <-> a = Some true \/ a = None.
Proof.
  destruct a as [[|]|]; simpl; split; auto;
    intros H; try discriminate; destruct H; discriminate.
Qed.

(** C10.  For a creator, [commandParams] after [ngOnInit] is the
    directive's own value when that is truthy and the creator's [params]
    otherwise -- [undefined], [null], [0], the empty string and [false]
    all give way to the creator's -- whether or not the initialisation
    then returns.  When the creator's [canExecute] is not a function, or
    is one that returns, [ngOnInit] returns and the Command it built has
    [isAsync] equal to [isAsync || isAsync === undefined], which is true
    exactly when the creator's [isAsync] is [true] or [undefined] and
    false when it is [false]; and whenever [ngOnInit] returns, the
    Command it holds is one built with such a flag. *)
Theorem params_and_async_defaults {U : CommandUtil} (d : CommandDirective)
        (creator : CommandCreator) :
  truthy (commandOrCreator d) = true ->
  isCommand (commandOrCreator d) = false ->
  isCommandCreator (commandOrCreator d) = Some creator ->
  commandParams (state (ngOnInit d))
  = (if truthy (commandParams d) then commandParams d else params creator)
  /\ (In (commandParams d)
         [JUndefined; JNull; JNumber 0; JString ""; JBool false] ->
      commandParams (state (ngOnInit d)) = params creator)
  /\ (forall g,
         match canExecute creator with
         | inl f =>
             f (host creator) [js_or (commandParams d) (params creator)]
         | inr v => Ok v
         end = Ok g ->
         result (ngOnInit d) = Ok tt
         /\ _command (state (ngOnInit d))
            = Some (NewCommand (bind (execute creator) (host creator) []) g
                               (asyncFlag (isAsync creator))))
  /\ (asyncFlag (isAsync creator) = true <->
      isAsync creator = Some true \/ isAsync creator = None)
  /\ (isAsync creator = Some false -> asyncFlag (isAsync creator) = false)
  /\ (result (ngOnInit d) = Ok tt ->
      exists execFn g async,
        _command (state (ngOnInit d)) = Some (NewCommand execFn g async)
        /\ (async = true <->
            isAsync creator = Some true \/ isAsync creator = None)
        /\ (isAsync creator = Some false -> async = false)).
Proof.
  intros Ht Hc Hk.
  assert (Hfalsy : In (commandParams d)
                      [JUndefined; JNull; JNumber 0; JString ""; JBool false] ->
                   js_or (commandParams d) (params creator) = params creator).
  { unfold js_or. intros [<-|[<-|[<-|[<-|[<-|[]]]]]]; reflexivity. }
  assert (Hbuilt : forall g,
             match canExecute creator with
             | inl f =>
                 f (host creator) [js_or (commandParams d) (params creator)]
             | inr v => Ok v
             end = Ok g ->
             result (ngOnInit d) = Ok tt
             /\ _command (state (ngOnInit d))
                = Some (NewCommand (bind (execute creator) (host creator) [])
                                   g (asyncFlag (isAsync creator)))).
  { intros g Hg.
    destruct (ngOnInit_creator d creator g Ht Hc Hk Hg)
      as (x & y & open & t & later & -> & _).
    fields. split; reflexivity. }
  destruct (match canExecute creator with
            | inl f => f (host creator)
                         [js_or (commandParams d) (params creator)]
            | inr v => Ok v
            end) as [g|e] eqn:Hg.
  - destruct (Hbuilt g eq_refl) as [Hok Hcmd].
    destruct (ngOnInit_creator d creator g Ht Hc Hk Hg)
      as (x & y & open & t & later & Heq & _).
    split; [rewrite Heq; reflexivity|].
    split; [rewrite Heq; exact Hfalsy|].
    split; [exact Hbuilt|].
    split; [apply asyncFlag_true_iff|].
    split; [intros ->; reflexivity|].
    intros _. eexists. eexists. eexists. split; [exact Hcmd|].
    split; [apply asyncFlag_true_iff|]. intros ->. reflexivity.
  - destruct (canExecute creator) as [f|v] eqn:Hf; [|discriminate].
    destruct (ngOnInit_gate_throws d creator f e Ht Hc Hk Hf Hg)
      as (x & t & Heq).
    split; [rewrite Heq; reflexivity|].
    split; [rewrite Heq; exact Hfalsy|].
    split; [exact Hbuilt|].
    split; [apply asyncFlag_true_iff|].
    split; [intros ->; reflexivity|].
    rewrite Heq. discriminate.
Qed.

Lemma params_and_async_defaults_witness :
  commandParams (state (@ngOnInit Demo.util Demo.withCreator))
  = JArray [JString "hero"; JNumber 1337]
  /\ result (@ngOnInit Demo.util Demo.withCreator) = Ok tt
  /\ _command (state (@ngOnInit Demo.util Demo.withCreator))
     = Some (NewCommand
               (bind (execute Demo.removeHero) (host Demo.removeHero) [])
               (JArray [JObject 1; JArray [JString "hero"; JNumber 1337]])
               true)
  /\ commandParams
       (state (@ngOnInit Demo.util
                 (create Demo.options (JObject 9) (JArray []))))
     = JArray [].
Proof.
  destruct (@params_and_async_defaults Demo.util Demo.withCreator
              Demo.removeHero eq_refl eq_refl eq_refl)
    as (Hparams & _ & Hbuilt & _).
  destruct (Hbuilt (JArray [JObject 1; JArray [JString "hero"; JNumber 1337]])
              eq_refl) as [Hok Hcmd].
  split; [exact Hparams|]. split; [exact Hok|].
  split; [exact Hcmd|reflexivity].
Defined.

(** What a click passes after [ngOnInit], by kind of input: the
    directive's own params for a Command, the effective params for a
    creator. *)
Lemma click_after_init_given {U : CommandUtil} (d : CommandDirective) :
  truthy (commandOrCreator d) = true ->
  isCommand (commandOrCreator d) = true ->
  trace (onClick (state (ngOnInit d)))
  = [CommandExecute (Given (commandOrCreator d))
                    (clickArguments (commandParams d))].
Proof.
  intros Ht Hc.
  destruct (ngOnInit_given d Ht Hc) as (x & y & e & t & later & -> & _).
  reflexivity.
Qed.

Lemma click_after_init_creator {U : CommandUtil} (d : CommandDirective)
      (creator : CommandCreator) (g : JsValue) :
  truthy (commandOrCreator d) = true ->
  isCommand (commandOrCreator d) = false ->
  isCommandCreator (commandOrCreator d) = Some creator ->
  match canExecute creator with
  | inl f => f (host creator) [js_or (commandParams d) (params creator)]
  | inr v => Ok v
  end = Ok g ->
  trace (onClick (state (ngOnInit d)))
  = [CommandExecute
       (NewCommand (bind (execute creator) (host creator) []) g
                   (asyncFlag (isAsync creator)))
       (clickArguments (js_or (commandParams d) (params creator)))].
Proof.
  intros Ht Hc Hk Hg.
  destruct (ngOnInit_creator d creator g Ht Hc Hk Hg)
    as (x & y & e & t & later & -> & _).
  reflexivity.
Qed.

(** [ngOnDestroy] returns, closes the three subscriptions and
    unsubscribes the Command if there is one. *)
Lemma ngOnDestroy_runs (d : CommandDirective) :
  ngOnDestroy d
  = mkOutcome (Ok tt) (with_subscriptions false false false d)
      match _command d with
      | Some held => [CommandUnsubscribe held]
      | None => []
      end.
Proof.
  unfold ngOnDestroy, bindM, gets, modify. simpl.
  destruct (_command d); reflexivity.
Qed.

End DirectiveFacts.

(* ===================================================================== *)
(** ** Teardown, on both sides *)
(* ===================================================================== *)

Module Teardown.

Import Directive.

(** C5.  [unsubscribe] returns without throwing and shows nothing, on a
    Command in any state (never subscribed included), and a second call
    changes nothing.  On the Command it leaves, [execute] returns without
    throwing, changes nothing and invokes nothing, and no sequence of
    later events makes the Command push a value or invoke its action.
    [ngOnDestroy] returns without throwing on a directive in any state:
    it calls [unsubscribe] on the Command it holds and calls nothing when
    [ngOnInit] never ran; running it again leaves the same state; and
    values of [canExecute$] no longer reach the directive. *)
Theorem teardown_is_safe
        (c : Command.Command) (args : list JsValue)
        (events : list Command.Event) (d : CommandDirective) (b : bool) :
  let torn := state (Command.unsubscribe c) in
  let gone := state (ngOnDestroy d) in
  Command.unsubscribe c = mkOutcome (Ok tt) torn []
  /\ Command.unsubscribe torn = mkOutcome (Ok tt) torn []
  /\ Command.execute args torn = mkOutcome (Ok tt) torn []
  /\ result (Command.run events torn) = Ok tt
  /\ trace (Command.run events torn) = []
  /\ result (ngOnDestroy d) = Ok tt
  /\ trace (ngOnDestroy d)
     = match _command d with
       | Some held => [CommandUnsubscribe held]
       | None => []
       end
  /\ state (ngOnDestroy gone) = gone
  /\ onCanExecute b gone = mkOutcome (Ok tt) gone [].
Proof.
  intros torn gone.
  assert (Hgone : gone = with_subscriptions false false false d)
    by (unfold gone; now rewrite DirectiveFacts.ngOnDestroy_runs).
  split; [reflexivity|].
  split; [reflexivity|].
  split; [apply CommandFacts.execute_torn_down; reflexivity|].
  split; [apply CommandFacts.run_returns|].
  split; [apply CommandFacts.run_torn_down; reflexivity|].
  rewrite !DirectiveFacts.ngOnDestroy_runs, Hgone.
  repeat split; reflexivity.
Qed.

(** A directive torn down before it was initialised, then clicked: the
    click throws, since there is no Command to call. *)
Example click_without_command :
  result (onClick (state (ngOnDestroy Demo.unbound)))
  = Throw (TypeError
             "Cannot read properties of undefined (reading 'execute')").
Proof. reflexivity. Qed.

End Teardown.

(* ===================================================================== *)
(** ** The directive over its whole life: facts *)
(* ===================================================================== *)

Module LifecycleFacts.

Import Directive Lifecycle.

(** Reading a field off an outcome or off an updated directive. *)
Ltac project :=
  cbn [result state trace
       config commandOrCreator commandParams _command _disabled
       _attrDisabled _commandOptions optionsOpen canExecuteOpen
       isExecutingOpen executingCssClass handleDisabled
       with_commandParams with_command with_disabled with_attrDisabled
       with_subscriptions with_commandOptions retarget handleOff
       withoutHandle mergeOptions] in *.

Ltac split_directive d :=
  destruct d as [[cfgClass cfgHandle] input ps held dis attr
                 [cls hd] oo co eo].

(** *** The setters, in closed form *)

(** [set disabled(value)]: nothing on an unchanged value; otherwise both
    fields take the value, and it is logged unless [attr.disabled] held
    it already. *)
Lemma set_disabled_closed (value : bool) (d : CommandDirective) :
  set_disabled value d
  = if Bool.eqb value (_disabled d) then mkOutcome (Ok tt) d []
    else mkOutcome (Ok tt)
           (with_attrDisabled (Some value) (with_disabled value d))
           (if strict_eq_flag (Some value) (_attrDisabled d) then []
            else [ConsoleError (Some value)]).
Proof.
  split_directive d.
  destruct value, attr as [[|]|], dis, oo, hd; reflexivity.
Qed.

Lemma set_disabled_mirrors (value : bool) (d : CommandDirective) :
  mirrors d -> mirrors (state (set_disabled value d)).
Proof.
  rewrite set_disabled_closed. unfold mirrors.
  destruct (Bool.eqb value (_disabled d)); project; auto.
Qed.

Lemma set_disabled_value (value : bool) (d : CommandDirective) :
  _disabled (state (set_disabled value d)) = value.
Proof.
  rewrite set_disabled_closed.
  destruct (Bool.eqb value (_disabled d)) eqn:E; project; auto.
  symmetry. apply eqb_prop, E.
Qed.

(** What [set disabled] logs on a directive whose attribute mirrors
    [disabled]: the value, when it is a change. *)
Lemma set_disabled_logs (value : bool) (d : CommandDirective) :
  mirrors d ->
  trace (set_disabled value d)
  = if Bool.eqb value (_disabled d) then []
    else [ConsoleError (Some value)].
Proof.
  unfold mirrors. rewrite set_disabled_closed.
  split_directive d. project.
  destruct value, attr as [[|]|], dis; project; intro H;
    try reflexivity; discriminate.
Qed.

(** [set commandOptions(value)] on a directive whose attribute mirrors
    [disabled]: the merged options are stored and nothing is called. *)
Lemma set_commandOptions_closed (value : OptionsInput)
      (d : CommandDirective) :
  mirrors d ->
  set_commandOptions value d
  = match value with
    | SameObject => mkOutcome (Ok tt) d []
    | Literal c h =>
        mkOutcome (Ok tt)
          (with_commandOptions (mergeOptions (config d) c h) d) []
    end.
Proof.
  unfold mirrors. split_directive d. project.
  destruct value as [|[c|] [[|]|]]; try reflexivity;
    destruct attr as [[|]|], dis, oo, cfgHandle; project; intro H;
    try reflexivity; discriminate.
Qed.

(** Without that assumption the stored options are the same, and what is
    called is [console.error] or [markForCheck]. *)
Lemma set_commandOptions_frame (value : OptionsInput)
      (d : CommandDirective) :
  exists x t,
    set_commandOptions value d
    = mkOutcome (Ok tt)
        (with_attrDisabled x
           (with_commandOptions
              match value with
              | SameObject => _commandOptions d
              | Literal c h => mergeOptions (config d) c h
              end d)) t
    /\ commandCalls t = [] /\ classCalls t = [].
Proof.
  split_directive d.
  destruct value as [|[c|] [[|]|]];
    destruct attr as [[|]|], dis, oo, cfgHandle;
    cbn; eexists; eexists; (split; [reflexivity|]); split; reflexivity.
Qed.


(** *** The callbacks and hooks, in closed form *)

Lemma onCanExecute_closed (b : bool) (d : CommandDirective) :
  onCanExecute b d
  = if canExecuteOpen d
    then mkOutcome (Ok tt) (state (set_disabled (negb b) d))
           (trace (set_disabled (negb b) d) ++ [MarkForCheck])
    else mkOutcome (Ok tt) d [].
Proof.
  unfold onCanExecute.
  rewrite (bindM_returns (gets canExecuteOpen) _ d d (canExecuteOpen d) []
             eq_refl).
  destruct (canExecuteOpen d); [|reflexivity].
  rewrite bindM_cases, set_disabled_closed.
  destruct (Bool.eqb (negb b) (_disabled d)); reflexivity.
Qed.

Lemma onIsExecuting_closed (b : bool) (d : CommandDirective) :
  onIsExecuting b d
  = mkOutcome (Ok tt) d
      (if isExecutingOpen d
       then [if b then AddClass (executingCssClass (_commandOptions d))
             else RemoveClass (executingCssClass (_commandOptions d))]
       else []).
Proof.
  unfold onIsExecuting, bindM, gets. cbn.
  destruct (isExecutingOpen d), b; reflexivity.
Qed.

Lemma onClick_closed (d : CommandDirective) :
  onClick d
  = match _command d with
    | Some c =>
        mkOutcome (Ok tt) d
          [CommandExecute c (clickArguments (commandParams d))]
    | None =>
        mkOutcome
          (Throw (TypeError
             "Cannot read properties of undefined (reading 'execute')"))
          d []
    end.
Proof.
  unfold onClick, bindM, gets. cbn. destruct (_command d); reflexivity.
Qed.

Section WithUtil.
Context {U : CommandUtil}.

(** Resolving the input assigns [commandParams] and [_command] and
    nothing else, calls nothing, and stores the Command it returns; when
    it throws [_command] is as before. *)
Lemma resolveCommand_frame (d : CommandDirective) :
  state (resolveCommand d)
  = retarget (commandParams (state (resolveCommand d)))
             (_command (state (resolveCommand d))) d
  /\ trace (resolveCommand d) = []
  /\ (forall c, result (resolveCommand d) = Ok c ->
                _command (state (resolveCommand d)) = Some c)
  /\ (forall e, result (resolveCommand d) = Throw e ->
                _command (state (resolveCommand d)) = _command d).
Proof.
  split_directive d.
  unfold resolveCommand, bindM, gets, modify, throw, ret, lift; cbn.
  destruct (truthy input); cbn;
    [|repeat split; intros; discriminate || reflexivity].
  destruct (isCommand input); cbn;
    [repeat split; intros; try discriminate; congruence|].
  destruct (isCommandCreator input) as [cc|]; cbn;
    [|repeat split; intros; discriminate || reflexivity].
  destruct (canExecute cc) as [f|v]; cbn;
    [|repeat split; intros; try discriminate; congruence].
  destruct (bind f (host cc) _ JUndefined []); cbn;
    repeat split; intros; try discriminate; congruence.
Qed.

(** Lines 151-187 on a directive whose attribute mirrors [disabled]. *)
Lemma openSubscriptions_closed (c : ICommand) (d : CommandDirective) :
  mirrors d ->
  openSubscriptions c d
  = mkOutcome (Ok tt)
      (with_subscriptions true true
         (if hasIsExecuting c then true else isExecutingOpen d) d)
      [CommandSubscribe c].
Proof.
  unfold mirrors, openSubscriptions. split_directive d. project.
  destruct (hasIsExecuting c), attr as [[|]|], dis, hd; intro H;
    try discriminate; reflexivity.
Qed.

(** And on any directive: the Command is subscribed, and nothing else is
    called on it or on the renderer. *)
Lemma openSubscriptions_frame (c : ICommand) (d : CommandDirective) :
  exists x t,
    openSubscriptions c d
    = mkOutcome (Ok tt)
        (with_attrDisabled x
           (with_subscriptions true true
              (if hasIsExecuting c then true else isExecutingOpen d) d))
        (CommandSubscribe c :: t)
    /\ commandCalls t = [] /\ classCalls t = [].
Proof.
  unfold openSubscriptions. split_directive d.
  destruct (hasIsExecuting c), attr as [[|]|], dis, hd;
    cbn; eexists; eexists; (split; [reflexivity|]); split; reflexivity.
Qed.

(** [ngOnInit] as the sequence of its three stages. *)
Lemma ngOnInit_unfold (d : CommandDirective) :
  ngOnInit d
  = match result (resolveCommand (state (set_disabled true d))) with
    | Ok c =>
        mkOutcome
          (result (openSubscriptions c
             (state (resolveCommand (state (set_disabled true d))))))
          (state (openSubscriptions c
             (state (resolveCommand (state (set_disabled true d))))))
          (trace (set_disabled true d)
           ++ trace (openSubscriptions c
                (state (resolveCommand (state (set_disabled true d))))))
    | Throw e =>
        mkOutcome (Throw e)
          (state (resolveCommand (state (set_disabled true d))))
          (trace (set_disabled true d))
    end.
Proof.
  destruct (DirectiveFacts.ngOnInit_stages d) as (x & t & _ & Hs & ->).
  rewrite Hs. cbv zeta. project.
  rewrite (proj1 (proj2 (resolveCommand_frame _))).
  rewrite app_nil_r.
  destruct (result (resolveCommand _)); reflexivity.
Qed.

(** Resolving the input leaves every other field alone. *)
Lemma resolveCommand_keeps (d : CommandDirective) :
  _disabled (state (resolveCommand d)) = _disabled d
  /\ _attrDisabled (state (resolveCommand d)) = _attrDisabled d
  /\ config (state (resolveCommand d)) = config d
  /\ _commandOptions (state (resolveCommand d)) = _commandOptions d
  /\ optionsOpen (state (resolveCommand d)) = optionsOpen d
  /\ canExecuteOpen (state (resolveCommand d)) = canExecuteOpen d
  /\ isExecutingOpen (state (resolveCommand d)) = isExecutingOpen d.
Proof.
  destruct (resolveCommand_frame d) as (H & _).
  rewrite H. repeat split.
Qed.

Lemma resolveCommand_mirrors (d : CommandDirective) :
  mirrors d -> mirrors (state (resolveCommand d)).
Proof.
  destruct (resolveCommand_keeps d) as (Hd & Ha & _).
  unfold mirrors. now rewrite Hd, Ha.
Qed.

(** *** Every event keeps the attribute in step with [disabled] *)

Lemma handle_mirrors (e : Event) (d : CommandDirective) :
  mirrors d -> mirrors (state (handle e d)).
Proof.
  intro H. destruct e as [|[b|b|]|v|v|o|]; cbn [handle turn].
  - rewrite ngOnInit_unfold.
    pose proof (resolveCommand_mirrors _ (set_disabled_mirrors true d H))
      as Hr.
    destruct (result (resolveCommand (state (set_disabled true d))));
      project; [|exact Hr].
    rewrite (openSubscriptions_closed _ _ Hr). exact Hr.
  - rewrite onCanExecute_closed. destruct (canExecuteOpen d); project;
      [apply set_disabled_mirrors|]; exact H.
  - rewrite onIsExecuting_closed. exact H.
  - rewrite onClick_closed. destruct (_command d); exact H.
  - apply set_disabled_mirrors, H.
  - exact H.
  - rewrite (set_commandOptions_closed o d H). destruct o; exact H.
  - rewrite DirectiveFacts.ngOnDestroy_runs. exact H.
Qed.

Lemma stateAfter_mirrors (events : list Event) (d : CommandDirective) :
  mirrors d -> mirrors (stateAfter events d).
Proof.
  revert d. induction events as [|e rest IH]; intros d H.
  - exact H.
  - apply IH, handle_mirrors, H.
Qed.

(** *** What one event between the hooks does *)

(** It leaves the Command, the configuration and the three
    subscriptions as they are. *)
Lemma live_keeps (e : Event) (d : CommandDirective) :
  live e = true ->
  _command (state (handle e d)) = _command d
  /\ config (state (handle e d)) = config d
  /\ optionsOpen (state (handle e d)) = optionsOpen d
  /\ canExecuteOpen (state (handle e d)) = canExecuteOpen d
  /\ isExecutingOpen (state (handle e d)) = isExecutingOpen d.
Proof.
  destruct e as [|[b|b|]|v|v|o|]; try discriminate; intros _;
    cbn [handle turn].
  - rewrite onCanExecute_closed, set_disabled_closed.
    destruct (canExecuteOpen d) eqn:Ho,
      (Bool.eqb (negb b) (_disabled d)); repeat split; try exact Ho.
  - rewrite onIsExecuting_closed. repeat split.
  - rewrite onClick_closed.
    destruct (_command d) eqn:Hc; repeat split; try exact Hc.
  - rewrite set_disabled_closed.
    destruct (Bool.eqb v (_disabled d)); repeat split.
  - repeat split.
  - destruct (set_commandOptions_frame o d) as (x & t & -> & _).
    repeat split.
Qed.

(** [commandParams] changes when it is assigned, and only then. *)
Lemma live_params (e : Event) (d : CommandDirective) :
  live e = true ->
  commandParams (state (handle e d))
  = match e with
    | WriteParams v => v
    | _ => commandParams d
    end.
Proof.
  destruct e as [|[b|b|]|v|v|o|]; try discriminate; intros _;
    cbn [handle turn].
  - rewrite onCanExecute_closed, set_disabled_closed.
    destruct (canExecuteOpen d), (Bool.eqb (negb b) (_disabled d));
      reflexivity.
  - rewrite onIsExecuting_closed. reflexivity.
  - rewrite onClick_closed. destruct (_command d); reflexivity.
  - rewrite set_disabled_closed.
    destruct (Bool.eqb v (_disabled d)); reflexivity.
  - reflexivity.
  - destruct (set_commandOptions_frame o d) as (x & t & -> & _).
    reflexivity.
Qed.

(** The options change when a literal is assigned, and only then. *)
Lemma live_options (e : Event) (d : CommandDirective) :
  live e = true ->
  _commandOptions (state (handle e d))
  = match e with
    | WriteOptions (Literal c h) => mergeOptions (config d) c h
    | _ => _commandOptions d
    end.
Proof.
  destruct e as [|[b|b|]|v|v|o|]; try discriminate; intros _;
    cbn [handle turn].
  - rewrite onCanExecute_closed, set_disabled_closed.
    destruct (canExecuteOpen d), (Bool.eqb (negb b) (_disabled d));
      reflexivity.
  - rewrite onIsExecuting_closed. reflexivity.
  - rewrite onClick_closed. destruct (_command d); reflexivity.
  - rewrite set_disabled_closed.
    destruct (Bool.eqb v (_disabled d)); reflexivity.
  - reflexivity.
  - destruct (set_commandOptions_frame o d) as (x & t & -> & _).
    destruct o; reflexivity.
Qed.

(** [disabled] changes when it is assigned, by the framework or by the
    open [canExecute$] subscription. *)
Lemma live_disabled (e : Event) (d : CommandDirective) :
  live e = true ->
  _disabled (state (handle e d))
  = match e with
    | WriteDisabled v => v
    | Deliver (CanExecuteNext b) =>
        if canExecuteOpen d then negb b else _disabled d
    | _ => _disabled d
    end.
Proof.
  destruct e as [|[b|b|]|v|v|o|]; try discriminate; intros _;
    cbn [handle turn].
  - rewrite onCanExecute_closed.
    destruct (canExecuteOpen d); project;
      [apply set_disabled_value|reflexivity].
  - rewrite onIsExecuting_closed. reflexivity.
  - rewrite onClick_closed. destruct (_command d); reflexivity.
  - apply set_disabled_value.
  - reflexivity.
  - destruct (set_commandOptions_frame o d) as (x & t & -> & _).
    reflexivity.
Qed.

(** The Command is called by a click and by nothing else. *)
Lemma live_commandCalls (e : Event) (d : CommandDirective) :
  live e = true ->
  commandCalls (trace (handle e d))
  = match e, _command d with
    | Deliver Click, Some c =>
        [CommandExecute c (clickArguments (commandParams d))]
    | _, _ => []
    end.
Proof.
  destruct e as [|[b|b|]|v|v|o|]; try discriminate; intros _;
    cbn [handle turn].
  - rewrite onCanExecute_closed, set_disabled_closed.
    destruct (canExecuteOpen d), (Bool.eqb (negb b) (_disabled d)),
      (strict_eq_flag (Some (negb b)) (_attrDisabled d)), (_command d);
      reflexivity.
  - rewrite onIsExecuting_closed.
    destruct (isExecutingOpen d), b, (_command d); reflexivity.
  - rewrite onClick_closed. destruct (_command d); reflexivity.
  - rewrite set_disabled_closed.
    destruct (Bool.eqb v (_disabled d)),
      (strict_eq_flag (Some v) (_attrDisabled d)), (_command d);
      reflexivity.
  - destruct (_command d); reflexivity.
  - destruct (set_commandOptions_frame o d) as (x & t & -> & Hc & _).
    project. rewrite Hc. destruct (_command d); reflexivity.
Qed.

(** The renderer is called by a value of [isExecuting$] and by nothing
    else. *)
Lemma live_classCalls (e : Event) (d : CommandDirective) :
  live e = true ->
  classCalls (trace (handle e d))
  = match e with
    | Deliver (IsExecutingNext b) =>
        if isExecutingOpen d
        then [if b then AddClass (executingCssClass (_commandOptions d))
              else RemoveClass (executingCssClass (_commandOptions d))]
        else []
    | _ => []
    end.
Proof.
  destruct e as [|[b|b|]|v|v|o|]; try discriminate; intros _;
    cbn [handle turn].
  - rewrite onCanExecute_closed, set_disabled_closed.
    destruct (canExecuteOpen d), (Bool.eqb (negb b) (_disabled d)),
      (strict_eq_flag (Some (negb b)) (_attrDisabled d)); reflexivity.
  - rewrite onIsExecuting_closed.
    destruct (isExecutingOpen d), b; reflexivity.
  - rewrite onClick_closed. destruct (_command d); reflexivity.
  - rewrite set_disabled_closed.
    destruct (Bool.eqb v (_disabled d)),
      (strict_eq_flag (Some v) (_attrDisabled d)); reflexivity.
  - reflexivity.
  - destruct (set_commandOptions_frame o d) as (x & t & -> & _ & Hk).
    project. exact Hk.
Qed.

(** What it logs, on a directive whose attribute mirrors [disabled]:
    the value it assigns to [disabled], when that is a change. *)
Lemma live_console (e : Event) (d : CommandDirective) :
  live e = true -> mirrors d ->
  consoleValues (trace (handle e d))
  = match e with
    | WriteDisabled v =>
        if Bool.eqb v (_disabled d) then [] else [Some v]
    | Deliver (CanExecuteNext b) =>
        if canExecuteOpen d
        then if Bool.eqb (negb b) (_disabled d) then [] else [Some (negb b)]
        else []
    | _ => []
    end.
Proof.
  destruct e as [|[b|b|]|v|v|o|]; try discriminate; intros _ Hm;
    cbn [handle turn].
  - rewrite onCanExecute_closed.
    destruct (canExecuteOpen d); [|reflexivity]. project.
    rewrite (set_disabled_logs _ _ Hm).
    destruct (Bool.eqb (negb b) (_disabled d)); reflexivity.
  - rewrite onIsExecuting_closed.
    destruct (isExecutingOpen d), b; reflexivity.
  - rewrite onClick_closed. destruct (_command d); reflexivity.
  - rewrite (set_disabled_logs _ _ Hm).
    destruct (Bool.eqb v (_disabled d)); reflexivity.
  - reflexivity.
  - rewrite (set_commandOptions_closed o d Hm). destruct o; reflexivity.
Qed.

(** *** Sequences of events *)

Lemma stateAfter_app (xs ys : list Event) (d : CommandDirective) :
  stateAfter (xs ++ ys) d = stateAfter ys (stateAfter xs d).
Proof.
  revert d. induction xs as [|e rest IH]; intro d; [reflexivity|].
  cbn [app stateAfter]. apply IH.
Qed.

Lemma callsDuring_app (xs ys : list Event) (d : CommandDirective) :
  callsDuring (xs ++ ys) d
  = callsDuring xs d ++ callsDuring ys (stateAfter xs d).
Proof.
  revert d. induction xs as [|e rest IH]; intro d; [reflexivity|].
  cbn [app callsDuring stateAfter]. now rewrite IH, app_assoc.
Qed.

Lemma commandCalls_app (xs ys : list Call) :
  commandCalls (xs ++ ys) = commandCalls xs ++ commandCalls ys.
Proof.
  induction xs as [|[v| |c|c|c|c args|c] rest IH]; cbn; congruence.
Qed.

Lemma classCalls_app (xs ys : list Call) :
  classCalls (xs ++ ys) = classCalls xs ++ classCalls ys.
Proof.
  induction xs as [|[v| |c|c|c|c args|c] rest IH]; cbn; congruence.
Qed.

Lemma consoleValues_app (xs ys : list Call) :
  consoleValues (xs ++ ys) = consoleValues xs ++ consoleValues ys.
Proof.
  induction xs as [|[v| |c|c|c|c args|c] rest IH]; cbn; congruence.
Qed.

Lemma last_cons (v : bool) (values : list bool) (start : bool) :
  last (v :: values) start = last values v.
Proof.
  revert v start.
  induction values as [|w rest IH]; intros v start; [reflexivity|].
  change (last (v :: w :: rest) start) with (last (w :: rest) start).
  now rewrite (IH w start), (IH w v).
Qed.

(** Between the hooks the Command, the configuration and the
    subscriptions stay as they are. *)
Lemma run_keeps (events : list Event) (d : CommandDirective) :
  forallb live events = true ->
  _command (stateAfter events d) = _command d
  /\ config (stateAfter events d) = config d
  /\ optionsOpen (stateAfter events d) = optionsOpen d
  /\ canExecuteOpen (stateAfter events d) = canExecuteOpen d
  /\ isExecutingOpen (stateAfter events d) = isExecutingOpen d.
Proof.
  revert d. induction events as [|e rest IH]; intros d Hl.
  - repeat split.
  - cbn in Hl. apply andb_true_iff in Hl as [He Hl].
    destruct (live_keeps e d He) as (H1 & H2 & H3 & H4 & H5).
    destruct (IH (state (handle e d)) Hl) as (K1 & K2 & K3 & K4 & K5).
    cbn [stateAfter]. repeat split; congruence.
Qed.

Lemma run_disabled (events : list Event) (d : CommandDirective) :
  forallb live events = true -> canExecuteOpen d = true ->
  _disabled (stateAfter events d) = last (writes events) (_disabled d).
Proof.
  revert d. induction events as [|e rest IH]; intros d Hl Ho.
  - reflexivity.
  - cbn in Hl. apply andb_true_iff in Hl as [He Hl].
    destruct (live_keeps e d He) as (_ & _ & _ & Ho' & _).
    cbn [stateAfter]. rewrite (IH _ Hl) by congruence.
    rewrite (live_disabled e d He), Ho.
    destruct e as [|[b|b|]|v|v|o|]; try discriminate;
      cbn [writes]; rewrite ?last_cons; reflexivity.
Qed.

Lemma run_commandCalls (events : list Event) (d : CommandDirective)
      (c : ICommand) :
  forallb live events = true -> _command d = Some c ->
  commandCalls (callsDuring events d)
  = executes c (commandParams d) events.
Proof.
  revert d. induction events as [|e rest IH]; intros d Hl Hc.
  - reflexivity.
  - cbn in Hl. apply andb_true_iff in Hl as [He Hl].
    destruct (live_keeps e d He) as (Hc' & _).
    cbn [callsDuring]. rewrite commandCalls_app.
    rewrite (IH _ Hl) by congruence.
    rewrite (live_commandCalls e d He), (live_params e d He), Hc.
    destruct e as [|[b|b|]|v|v|o|]; try discriminate; reflexivity.
Qed.

Lemma run_classCalls (events : list Event) (d : CommandDirective) :
  forallb live events = true ->
  classCalls (callsDuring events d)
  = if isExecutingOpen d
    then toggles (config d) (executingCssClass (_commandOptions d)) events
    else [].
Proof.
  revert d. induction events as [|e rest IH]; intros d Hl.
  - destruct (isExecutingOpen d); reflexivity.
  - cbn in Hl. apply andb_true_iff in Hl as [He Hl].
    destruct (live_keeps e d He) as (_ & Hcfg & _ & _ & Hopen).
    cbn [callsDuring]. rewrite classCalls_app, (IH _ Hl).
    rewrite (live_classCalls e d He), (live_options e d He), Hcfg, Hopen.
    destruct (isExecutingOpen d);
      destruct e as [|[b|[|]|]|v|v|[|c h]|]; try discriminate; reflexivity.
Qed.

Lemma run_console (events : list Event) (d : CommandDirective) :
  forallb live events = true -> mirrors d -> canExecuteOpen d = true ->
  consoleValues (callsDuring events d)
  = map Some (changes (_disabled d) (writes events)).
Proof.
  revert d. induction events as [|e rest IH]; intros d Hl Hm Ho.
  - reflexivity.
  - cbn in Hl. apply andb_true_iff in Hl as [He Hl].
    destruct (live_keeps e d He) as (_ & _ & _ & Ho' & _).
    cbn [callsDuring]. rewrite consoleValues_app.
    rewrite (IH _ Hl (handle_mirrors e d Hm)) by congruence.
    rewrite (live_console e d He Hm), (live_disabled e d He), Ho.
    destruct e as [|[b|b|]|v|v|o|]; try discriminate; cbn [writes changes];
      try reflexivity.
    + destruct (Bool.eqb (negb b) (_disabled d)) eqn:E; [|reflexivity].
      apply eqb_prop in E. now rewrite E.
    + destruct (Bool.eqb v (_disabled d)) eqn:E; [|reflexivity].
      apply eqb_prop in E. now rewrite E.
Qed.

(** *** [ngOnInit], by outcome *)

Lemma set_disabled_calls (value : bool) (d : CommandDirective) :
  commandCalls (trace (set_disabled value d)) = []
  /\ classCalls (trace (set_disabled value d)) = [].
Proof.
  rewrite set_disabled_closed.
  destruct (Bool.eqb value (_disabled d)),
    (strict_eq_flag (Some value) (_attrDisabled d)); split; reflexivity.
Qed.

Lemma set_disabled_keeps (value : bool) (d : CommandDirective) :
  _command (state (set_disabled value d)) = _command d
  /\ commandParams (state (set_disabled value d)) = commandParams d
  /\ commandOrCreator (state (set_disabled value d)) = commandOrCreator d
  /\ config (state (set_disabled value d)) = config d
  /\ _commandOptions (state (set_disabled value d)) = _commandOptions d
  /\ optionsOpen (state (set_disabled value d)) = optionsOpen d
  /\ canExecuteOpen (state (set_disabled value d)) = canExecuteOpen d
  /\ isExecutingOpen (state (set_disabled value d)) = isExecutingOpen d.
Proof.
  rewrite set_disabled_closed.
  destruct (Bool.eqb value (_disabled d)); repeat split.
Qed.

(** When it returns: the Command it resolved is stored and subscribed,
    once, and the [canExecute$] subscription is open. *)
Lemma ngOnInit_when_returned (d : CommandDirective) :
  result (ngOnInit d) = Ok tt ->
  exists c,
    result (resolveCommand (state (set_disabled true d))) = Ok c
    /\ _command (state (ngOnInit d)) = Some c
    /\ commandParams (state (ngOnInit d))
       = commandParams (state (resolveCommand (state (set_disabled true d))))
    /\ commandCalls (trace (ngOnInit d)) = [CommandSubscribe c]
    /\ classCalls (trace (ngOnInit d)) = []
    /\ canExecuteOpen (state (ngOnInit d)) = true
    /\ isExecutingOpen (state (ngOnInit d))
       = (if hasIsExecuting c then true else isExecutingOpen d).
Proof.
  rewrite ngOnInit_unfold.
  destruct (resolveCommand_frame (state (set_disabled true d)))
    as (_ & _ & Hok & _).
  destruct (resolveCommand_keeps (state (set_disabled true d)))
    as (_ & _ & _ & _ & _ & _ & He).
  destruct (result (resolveCommand (state (set_disabled true d))))
    as [c|e]; [|discriminate].
  intros _. exists c. specialize (Hok c eq_refl).
  destruct (openSubscriptions_frame c
              (state (resolveCommand (state (set_disabled true d)))))
    as (x & t & -> & Hc & Hk).
  destruct (set_disabled_calls true d) as [Sc Sk].
  destruct (set_disabled_keeps true d) as (_ & _ & _ & _ & _ & _ & _ & Se).
  project. rewrite commandCalls_app, classCalls_app, Sc, Sk.
  cbn [app commandCalls classCalls].
  rewrite Hc, Hk, He, Se.
  repeat split. exact Hok.
Qed.

(** When it throws: no Command is stored or called, and no subscription
    is opened. *)
Lemma ngOnInit_threw (d : CommandDirective) (e : JsError) :
  result (ngOnInit d) = Throw e ->
  result (resolveCommand (state (set_disabled true d))) = Throw e
  /\ state (ngOnInit d) = state (resolveCommand (state (set_disabled true d)))
  /\ _command (state (ngOnInit d)) = _command d
  /\ commandCalls (trace (ngOnInit d)) = []
  /\ classCalls (trace (ngOnInit d)) = []
  /\ canExecuteOpen (state (ngOnInit d)) = canExecuteOpen d.
Proof.
  rewrite ngOnInit_unfold.
  destruct (resolveCommand_frame (state (set_disabled true d)))
    as (_ & _ & _ & Hthrow).
  destruct (resolveCommand_keeps (state (set_disabled true d)))
    as (_ & _ & _ & _ & _ & Hopen & _).
  destruct (set_disabled_calls true d) as [Sc Sk].
  destruct (result (resolveCommand (state (set_disabled true d))))
    as [c|e'].
  - destruct (openSubscriptions_frame c
                (state (resolveCommand (state (set_disabled true d)))))
      as (x & t & -> & _). discriminate.
  - destruct (set_disabled_keeps true d)
      as (Scmd & _ & _ & _ & _ & _ & So & _).
    project. intro H. injection H as ->.
    rewrite (Hthrow e eq_refl), Hopen, Scmd, So.
    repeat split; assumption.
Qed.

(** Whatever its outcome it leaves the configuration and the options. *)
Lemma ngOnInit_keeps (d : CommandDirective) :
  config (state (ngOnInit d)) = config d
  /\ _commandOptions (state (ngOnInit d)) = _commandOptions d.
Proof.
  rewrite ngOnInit_unfold.
  destruct (resolveCommand_keeps (state (set_disabled true d)))
    as (_ & _ & Hcfg & Hopt & _).
  destruct (set_disabled_keeps true d) as (_ & _ & _ & Scfg & Sopt & _).
  destruct (result (resolveCommand (state (set_disabled true d))))
    as [c|e].
  - destruct (openSubscriptions_frame c
                (state (resolveCommand (state (set_disabled true d)))))
      as (x & t & -> & _).
    project. rewrite Hcfg, Hopt. split; assumption.
  - project. rewrite Hcfg, Hopt. split; assumption.
Qed.

(** *** What [handleDisabled] changes *)

Lemma handleOff_mirrors (d : CommandDirective) :
  mirrors d -> mirrors (handleOff d).
Proof.
  intro H. exact H.
Qed.

Lemma set_disabled_handleOff (value : bool) (d : CommandDirective) :
  set_disabled value (handleOff d)
  = mkOutcome (Ok tt) (handleOff (state (set_disabled value d)))
      (trace (set_disabled value d)).
Proof.
  rewrite !set_disabled_closed. project.
  destruct (Bool.eqb value (_disabled d)); reflexivity.
Qed.

Lemma resolveCommand_handleOff (d : CommandDirective) :
  resolveCommand (handleOff d)
  = mkOutcome (result (resolveCommand d))
      (handleOff (state (resolveCommand d))) [].
Proof.
  split_directive d.
  unfold resolveCommand, bindM, gets, modify, throw, ret, lift; cbn.
  destruct (truthy input); cbn; [|reflexivity].
  destruct (isCommand input); cbn; [reflexivity|].
  destruct (isCommandCreator input) as [cc|]; cbn; [|reflexivity].
  destruct (canExecute cc) as [f|v]; cbn; [|reflexivity].
  destruct (bind f (host cc) _ JUndefined []); reflexivity.
Qed.

Lemma ngOnInit_handleOff (d : CommandDirective) :
  mirrors d ->
  ngOnInit (handleOff d)
  = mkOutcome (result (ngOnInit d)) (handleOff (state (ngOnInit d)))
      (trace (ngOnInit d)).
Proof.
  intro H. rewrite !ngOnInit_unfold, set_disabled_handleOff. project.
  rewrite resolveCommand_handleOff. project.
  pose proof (resolveCommand_mirrors _ (set_disabled_mirrors true d H))
    as Hr.
  destruct (result (resolveCommand (state (set_disabled true d))));
    [|reflexivity].
  rewrite (openSubscriptions_closed _ _ Hr).
  rewrite (openSubscriptions_closed _ _ (handleOff_mirrors _ Hr)).
  reflexivity.
Qed.

(** An event does the same to a directive and to its copy with
    [handleDisabled] off, up to the flag itself. *)
Lemma handle_handleOff (e : Event) (d : CommandDirective) :
  mirrors d ->
  result (handle e (handleOff d)) = result (handle e d)
  /\ trace (handle e (handleOff d)) = trace (handle e d)
  /\ handleOff (state (handle e (handleOff d)))
     = handleOff (state (handle e d)).
Proof.
  intro H. destruct e as [|[b|b|]|v|v|o|]; cbn [handle turn].
  - rewrite (ngOnInit_handleOff d H). repeat split.
  - rewrite !onCanExecute_closed, set_disabled_handleOff. project.
    destruct (canExecuteOpen d); repeat split.
  - rewrite !onIsExecuting_closed. project. repeat split.
  - rewrite !onClick_closed. project. destruct (_command d); repeat split.
  - rewrite set_disabled_handleOff, set_disabled_closed.
    destruct (Bool.eqb v (_disabled d)); repeat split.
  - cbn [modify]. project. repeat split.
  - rewrite (set_commandOptions_closed o d H),
      (set_commandOptions_closed o (handleOff d) (handleOff_mirrors d H)).
    destruct o as [|c h]; project; repeat split.
  - rewrite !DirectiveFacts.ngOnDestroy_runs. project. repeat split.
Qed.

Lemma run_handleOff (events : list Event) (d d' : CommandDirective) :
  mirrors d -> mirrors d' -> handleOff d = handleOff d' ->
  callsDuring events d = callsDuring events d'
  /\ handleOff (stateAfter events d) = handleOff (stateAfter events d').
Proof.
  revert d d'. induction events as [|e rest IH]; intros d d' Hm Hm' Heq.
  - split; [reflexivity|exact Heq].
  - destruct (handle_handleOff e d Hm) as (_ & Ht & Hs).
    destruct (handle_handleOff e d' Hm') as (_ & Ht' & Hs').
    cbn [callsDuring stateAfter].
    destruct (IH (state (handle e d)) (state (handle e d'))) as [Hc Hf].
    + apply handle_mirrors, Hm.
    + apply handle_mirrors, Hm'.
    + rewrite <- Hs, <- Hs', Heq. reflexivity.
    + split; [|exact Hf].
      rewrite Hc, <- Ht, <- Ht', Heq. reflexivity.
Qed.

(** *** More on sequences *)

Lemma handle_options (e : Event) (d : CommandDirective) :
  config (state (handle e d)) = config d
  /\ _commandOptions (state (handle e d))
     = match e with
       | WriteOptions (Literal c h) => mergeOptions (config d) c h
       | _ => _commandOptions d
       end.
Proof.
  destruct (live e) eqn:He.
  - destruct (live_keeps e d He) as (_ & Hcfg & _).
    split; [exact Hcfg|apply live_options, He].
  - destruct e; try discriminate; cbn [handle].
    + apply ngOnInit_keeps.
    + rewrite DirectiveFacts.ngOnDestroy_runs. split; reflexivity.
Qed.

Lemma run_options (events : list Event) (d : CommandDirective) :
  config (stateAfter events d) = config d
  /\ _commandOptions (stateAfter events d)
     = match lastOptions (config d) events with
       | Some o => o
       | None => _commandOptions d
       end.
Proof.
  revert d. induction events as [|e rest IH]; intro d.
  - split; reflexivity.
  - destruct (handle_options e d) as [Hcfg Hopt].
    destruct (IH (state (handle e d))) as [Kcfg Kopt].
    cbn [stateAfter]. rewrite Kcfg, Kopt, Hcfg, Hopt. split; [reflexivity|].
    destruct e as [|t|v|v|[|c h]|]; cbn [lastOptions]; try reflexivity.
    destruct (lastOptions (config d) rest); reflexivity.
Qed.

Lemma run_commandCalls_none (events : list Event) (d : CommandDirective) :
  forallb live events = true -> _command d = None ->
  commandCalls (callsDuring events d) = [].
Proof.
  revert d. induction events as [|e rest IH]; intros d Hl Hc.
  - reflexivity.
  - cbn in Hl. apply andb_true_iff in Hl as [He Hl].
    destruct (live_keeps e d He) as (Hc' & _).
    cbn [callsDuring]. rewrite commandCalls_app.
    rewrite (IH _ Hl) by congruence.
    rewrite (live_commandCalls e d He), Hc.
    destruct e as [|[b|b|]|v|v|o|]; reflexivity.
Qed.

(** A sequence of stream values and clicks is the sequence of its
    turns. *)
Lemma stateAfter_turns (turns : list Turn) (d : CommandDirective) :
  stateAfter (map Deliver turns) d = after turns d.
Proof.
  revert d. induction turns as [|t rest IH]; intro d; [reflexivity|].
  cbn [map stateAfter handle].
  change (after (t :: rest) d) with (after rest (state (turn t d))).
  apply IH.
Qed.

(** With both stream subscriptions closed a value of either stream does
    nothing. *)
Lemma run_closed (events : list Event) (d : CommandDirective) :
  forallb streamValue events = true ->
  canExecuteOpen d = false -> isExecutingOpen d = false ->
  stateAfter events d = d /\ callsDuring events d = [].
Proof.
  intros Hs Hc He. induction events as [|e rest IH].
  - split; reflexivity.
  - cbn in Hs. apply andb_true_iff in Hs as [Hv Hs].
    destruct (IH Hs) as [Hstate Hcalls].
    destruct e as [|[b|b|]|v|v|o|]; try discriminate;
      cbn [stateAfter callsDuring handle turn].
    + rewrite onCanExecute_closed, Hc. project.
      split; assumption.
    + rewrite onIsExecuting_closed, He. project.
      split; assumption.
Qed.

(** What [ngOnInit] logs when it returns, on a directive whose attribute
    mirrors [disabled]. *)
Lemma ngOnInit_console (d : CommandDirective) :
  mirrors d -> result (ngOnInit d) = Ok tt ->
  consoleValues (trace (ngOnInit d))
  = if _disabled d then [] else [Some true].
Proof.
  intros Hm. rewrite ngOnInit_unfold.
  pose proof (resolveCommand_mirrors _ (set_disabled_mirrors true d Hm))
    as Hr.
  destruct (result (resolveCommand (state (set_disabled true d))))
    as [c|e]; [|discriminate].
  intros _. rewrite (openSubscriptions_closed _ _ Hr). project.
  rewrite consoleValues_app, (set_disabled_logs true d Hm).
  destruct (_disabled d); reflexivity.
Qed.

End WithUtil.

End LifecycleFacts.

(* ===================================================================== *)
(** ** The directive over its whole life: properties *)
(* ===================================================================== *)

Module LifecycleProperties.

Import Directive Lifecycle LifecycleFacts.

(** X1.  From its construction on, through any sequence of hooks, stream
    values, clicks and assignments of its inputs, the directive keeps
    [attr.disabled] in step with [disabled]: the attribute is still
    [undefined] (and [disabled] still false) or it holds the value of
    [disabled]. *)
Theorem attribute_mirrors_disabled {U : CommandUtil}
        (cfg : CommandOptions) (input parameters : JsValue)
        (events : list Event) :
  mirrors (stateAfter events (create cfg input parameters)).
Proof.
  apply stateAfter_mirrors. reflexivity.
Qed.

(** X2.  [handleDisabled] changes nothing: two directives constructed
    alike but for the flag make the same calls, in the same order, over
    any sequence of events, and end in states that differ at most in the
    flag (also when the events assign options that set it). *)
Theorem handleDisabled_is_inert {U : CommandUtil}
        (cssClass : string) (on off : bool) (input parameters : JsValue)
        (events : list Event) :
  let one := create (mkOptions cssClass on) input parameters in
  let other := create (mkOptions cssClass off) input parameters in
  callsDuring events one = callsDuring events other
  /\ handleOff (stateAfter events one) = handleOff (stateAfter events other).
Proof.
  intros one other. apply run_handleOff; reflexivity.
Qed.

(** X3.  Assigning [attrDisabled] from outside, on a directive whose
    attribute mirrors [disabled]: the setter returns, after at most one
    re-entrant assignment; [disabled] is not touched; while the pipeline
    of lines 152-161 is subscribed with [handleDisabled] set, a defined
    value is put back to the value of [disabled], and otherwise the
    assigned value stays. *)
Theorem pipeline_restores_attribute
        (d : CommandDirective) (value : option bool) (depth : nat) :
  mirrors d ->
  set_attrDisabled_upto (S depth) value d = set_attrDisabled value d
  /\ result (set_attrDisabled value d) = Ok tt
  /\ _disabled (state (set_attrDisabled value d)) = _disabled d
  /\ _attrDisabled (state (set_attrDisabled value d))
     = (if optionsOpen d && handleDisabled (_commandOptions d)
        then match value with
             | Some _ => Some (_disabled d)
             | None => None
             end
        else value).
Proof.
  unfold mirrors. split_directive d. project.
  destruct value as [[|]|], attr as [[|]|], dis, oo, hd, depth;
    intro H; try discriminate; repeat split.
Qed.

Lemma pipeline_restores_attribute_witness :
  _attrDisabled
    (state (set_attrDisabled (Some false)
              (state (@ngOnInit Demo.util Demo.withCommand))))
  = Some true.
Proof.
  exact (proj2 (proj2 (proj2
           (pipeline_restores_attribute
              (state (@ngOnInit Demo.util Demo.withCommand))
              (Some false) 0 eq_refl)))).
Defined.

(** X4.  After an [ngOnInit] that returned, and any sequence of events
    before [ngOnDestroy], [disabled] is what was assigned last: the
    negation of a value of [canExecute$], or the value the framework
    wrote to the input; [true], from [ngOnInit], if nothing was
    assigned since. *)
Theorem disabled_is_last_assignment {U : CommandUtil}
        (d : CommandDirective) (events : list Event) :
  result (ngOnInit d) = Ok tt ->
  forallb live events = true ->
  _disabled (stateAfter (Init :: events) d) = last (writes events) true.
Proof.
  intros Hok Hl.
  destruct (ngOnInit_when_returned d Hok) as (c & _ & _ & _ & _ & _ & Ho & _).
  cbn [stateAfter handle].
  rewrite (run_disabled events _ Hl Ho), DirectiveFacts.ngOnInit_disables.
  reflexivity.
Qed.

Lemma disabled_is_last_assignment_witness :
  _disabled
    (@stateAfter Demo.util
       [Init; Deliver (CanExecuteNext true); WriteDisabled true;
        Deliver Click]
       Demo.withCommand)
  = true.
Proof.
  exact (@disabled_is_last_assignment Demo.util Demo.withCommand
           [Deliver (CanExecuteNext true); WriteDisabled true; Deliver Click]
           eq_refl eq_refl).
Defined.

(** X5.  Over a whole life -- an [ngOnInit] that returns, any events,
    [ngOnDestroy] -- the calls on the Command are: [subscribe], once and
    first; one [execute] per click, with the value [commandParams] holds
    at that click (spread when an array), whether or not [disabled] is
    true; [unsubscribe], once and last; all on the one Command
    [ngOnInit] stored. *)
Theorem command_is_subscribed_executed_unsubscribed {U : CommandUtil}
        (d : CommandDirective) (events : list Event) :
  result (ngOnInit d) = Ok tt ->
  forallb live events = true ->
  exists c,
    _command (state (ngOnInit d)) = Some c
    /\ commandCalls (callsDuring (Init :: events ++ [Destroy]) d)
       = CommandSubscribe c
         :: executes c (commandParams (state (ngOnInit d))) events
         ++ [CommandUnsubscribe c].
Proof.
  intros Hok Hl.
  destruct (ngOnInit_when_returned d Hok) as (c & _ & Hc & _ & Hcalls & _).
  exists c. split; [exact Hc|].
  cbn [callsDuring handle stateAfter].
  rewrite commandCalls_app, Hcalls, callsDuring_app, commandCalls_app.
  rewrite (run_commandCalls events _ c Hl Hc).
  destruct (run_keeps events (state (ngOnInit d)) Hl) as (Hkeep & _).
  cbn [callsDuring handle].
  rewrite DirectiveFacts.ngOnDestroy_runs. project.
  rewrite Hkeep, Hc. reflexivity.
Qed.

Lemma command_is_subscribed_executed_unsubscribed_witness :
  commandCalls
    (@callsDuring Demo.util
       [Init; Deliver (CanExecuteNext false); Deliver Click;
        WriteParams (JString "b"); Deliver Click; Destroy]
       Demo.withCommand)
  = [CommandSubscribe (Given (JObject 7));
     CommandExecute (Given (JObject 7)) [JString "a"; JString "b"];
     CommandExecute (Given (JObject 7)) [JString "b"];
     CommandUnsubscribe (Given (JObject 7))].
Proof.
  destruct (@command_is_subscribed_executed_unsubscribed
              Demo.util Demo.withCommand
              [Deliver (CanExecuteNext false); Deliver Click;
               WriteParams (JString "b"); Deliver Click]
              eq_refl eq_refl) as (c & Hc & Hcalls).
  injection Hc as <-. exact Hcalls.
Defined.

(** X6.  After [ngOnDestroy] values of [canExecute$] and [isExecuting$]
    no longer reach the directive: any sequence of them leaves its state
    as it is and calls nothing.  The Command is still held, and a click
    still calls its [execute]. *)
Theorem destroyed_directive_ignores_streams {U : CommandUtil}
        (d : CommandDirective) (c : ICommand) (events : list Event) :
  forallb streamValue events = true ->
  _command d = Some c ->
  stateAfter events (state (ngOnDestroy d)) = state (ngOnDestroy d)
  /\ callsDuring events (state (ngOnDestroy d)) = []
  /\ onClick (state (ngOnDestroy d))
     = mkOutcome (Ok tt) (state (ngOnDestroy d))
         [CommandExecute c (clickArguments (commandParams d))].
Proof.
  intros Hs Hc. rewrite DirectiveFacts.ngOnDestroy_runs. project.
  destruct (run_closed events (with_subscriptions false false false d) Hs
              eq_refl eq_refl) as [Hstate Hcalls].
  repeat split; try assumption.
  rewrite onClick_closed. project. rewrite Hc. reflexivity.
Qed.

Lemma destroyed_directive_ignores_streams_witness :
  _disabled
    (@stateAfter Demo.util
       [Deliver (CanExecuteNext true); Deliver (IsExecutingNext true)]
       (state (ngOnDestroy (state (@ngOnInit Demo.util Demo.withCommand)))))
  = true.
Proof.
  rewrite (proj1 (@destroyed_directive_ignores_streams Demo.util
                    (state (@ngOnInit Demo.util Demo.withCommand))
                    (Given (JObject 7))
                    [Deliver (CanExecuteNext true);
                     Deliver (IsExecutingNext true)]
                    eq_refl eq_refl)).
  reflexivity.
Defined.

(** X7.  While the [isExecuting$] subscription is open the renderer is
    called once per value of the stream, in order -- [addClass] for
    true, [removeClass] for false -- and by nothing else; the class is
    the one the options name when the value arrives, so after the
    options were assigned in between, the class removed is not the one
    that was added. *)
Theorem class_follows_isExecuting {U : CommandUtil}
        (d : CommandDirective) (events : list Event) :
  isExecutingOpen d = true ->
  forallb live events = true ->
  classCalls (callsDuring events d)
  = toggles (config d) (executingCssClass (_commandOptions d)) events.
Proof.
  intros Ho Hl. rewrite (run_classCalls events d Hl), Ho. reflexivity.
Qed.

Lemma class_follows_isExecuting_witness :
  classCalls
    (@callsDuring Demo.util
       [Deliver (IsExecutingNext true);
        WriteOptions (Literal (Some "busy") None);
        Deliver (IsExecutingNext false)]
       (state (@ngOnInit Demo.util Demo.withCommand)))
  = [AddClass "executing"; RemoveClass "busy"].
Proof.
  exact (@class_follows_isExecuting Demo.util
           (state (@ngOnInit Demo.util Demo.withCommand))
           [Deliver (IsExecutingNext true);
            WriteOptions (Literal (Some "busy") None);
            Deliver (IsExecutingNext false)]
           eq_refl eq_refl).
Defined.

(** X8.  A Command without an [isExecuting$] stream (line 169): from
    [ngOnInit] on, whatever arrives, the renderer is never called. *)
Theorem no_stream_no_class {U : CommandUtil}
        (d : CommandDirective) (events : list Event) :
  truthy (commandOrCreator d) = true ->
  isCommand (commandOrCreator d) = true ->
  exposesIsExecuting (commandOrCreator d) = false ->
  isExecutingOpen d = false ->
  forallb live events = true ->
  classCalls (callsDuring (Init :: events) d) = [].
Proof.
  intros Ht Hc Hx Hclosed Hl.
  destruct (DirectiveFacts.ngOnInit_given d Ht Hc)
    as (x & y & e & t & later & Heq & _).
  assert (Hok : result (ngOnInit d) = Ok tt) by now rewrite Heq.
  destruct (ngOnInit_when_returned d Hok)
    as (c & Hr & _ & _ & _ & Hk & _ & Hopen).
  destruct (set_disabled_keeps true d) as (_ & Sp & Si & _).
  rewrite (DirectiveFacts.resolveCommand_given _
             (eq_trans (f_equal truthy Si) Ht)
             (eq_trans (f_equal isCommand Si) Hc)) in Hr.
  project. injection Hr as <-.
  cbn [hasIsExecuting] in Hopen. rewrite Si, Hx, Hclosed in Hopen.
  cbn [callsDuring handle].
  rewrite classCalls_app, Hk, (run_classCalls events _ Hl), Hopen.
  reflexivity.
Qed.

Lemma no_stream_no_class_witness :
  classCalls
    (@callsDuring Lifecycle.util
       [Init; Deliver (IsExecutingNext true); Deliver (IsExecutingNext false)]
       Demo.withCommand)
  = [].
Proof.
  exact (@no_stream_no_class Lifecycle.util Demo.withCommand
           [Deliver (IsExecutingNext true); Deliver (IsExecutingNext false)]
           eq_refl eq_refl eq_refl eq_refl eq_refl).
Defined.

(** X9.  The configuration never changes, and the options are always
    the last assigned object merged over the configuration -- not over
    the options before it, so a field an earlier assignment set and the
    last one leaves out is back at its configured value; assigning the
    current object changes nothing. *)
Theorem options_are_last_literal_over_config {U : CommandUtil}
        (d : CommandDirective) (events : list Event) :
  config (stateAfter events d) = config d
  /\ _commandOptions (stateAfter events d)
     = match lastOptions (config d) events with
       | Some o => o
       | None => _commandOptions d
       end.
Proof.
  apply run_options.
Qed.

(** X10.  When a creator's [canExecute] function throws, [ngOnInit]
    throws the same value, having set [disabled] and overwritten
    [commandParams]; no Command is stored, none is called, and the
    [canExecute$] subscription is not opened. *)
Theorem throwing_gate_leaves_directive_half_initialised {U : CommandUtil}
        (d : CommandDirective) (creator : CommandCreator)
        (f : JsFunction) (e : JsError) :
  truthy (commandOrCreator d) = true ->
  isCommand (commandOrCreator d) = false ->
  isCommandCreator (commandOrCreator d) = Some creator ->
  canExecute creator = inl f ->
  f (host creator) [js_or (commandParams d) (params creator)] = Throw e ->
  result (ngOnInit d) = Throw e
  /\ _disabled (state (ngOnInit d)) = true
  /\ commandParams (state (ngOnInit d))
     = js_or (commandParams d) (params creator)
  /\ _command (state (ngOnInit d)) = _command d
  /\ canExecuteOpen (state (ngOnInit d)) = canExecuteOpen d
  /\ commandCalls (trace (ngOnInit d)) = [].
Proof.
  intros Ht Hc Hk Hf He.
  destruct (DirectiveFacts.ngOnInit_gate_throws d creator f e Ht Hc Hk Hf He)
    as (x & t & Heq).
  assert (Hthrow : result (ngOnInit d) = Throw e) by now rewrite Heq.
  destruct (ngOnInit_threw d e Hthrow) as (_ & _ & Hcmd & Hcalls & _ & Ho).
  split; [exact Hthrow|].
  split; [apply DirectiveFacts.ngOnInit_disables|].
  split; [now rewrite Heq|].
  repeat split; assumption.
Qed.

Lemma throwing_gate_leaves_directive_half_initialised_witness :
  result (@ngOnInit Lifecycle.util
            (create Demo.options (JObject 11) JUndefined))
  = Throw (Error "isValid failed")
  /\ commandParams
       (state (@ngOnInit Lifecycle.util
                 (create Demo.options (JObject 11) JUndefined)))
     = JArray [JString "hero"].
Proof.
  destruct (@throwing_gate_leaves_directive_half_initialised
              Lifecycle.util (create Demo.options (JObject 11) JUndefined)
              brokenCreator failing (Error "isValid failed")
              eq_refl eq_refl eq_refl eq_refl eq_refl)
    as (Hr & _ & Hp & _).
  split; [exact Hr|exact Hp].
Defined.

(** X11.  A directive constructed with an input that [ngOnInit] rejects
    never calls a Command: not in [ngOnInit], not on a click -- which
    throws a [TypeError], there being no Command to call -- and not in
    [ngOnDestroy]. *)
Theorem rejected_input_never_reaches_a_command {U : CommandUtil}
        (cfg : CommandOptions) (input parameters : JsValue)
        (events : list Event) :
  truthy input = false
  \/ (isCommand input = false /\ isCommandCreator input = None) ->
  forallb live events = true ->
  commandCalls
    (callsDuring (Init :: events ++ [Destroy])
       (create cfg input parameters)) = []
  /\ result (onClick (stateAfter (Init :: events)
                        (create cfg input parameters)))
     = Throw (TypeError
                "Cannot read properties of undefined (reading 'execute')").
Proof.
  intros Hbad Hl.
  set (d := create cfg input parameters).
  assert (Hthrow : exists e, result (ngOnInit d) = Throw e).
  { destruct (truthy input) eqn:Htruthy.
    - destruct Hbad as [Hbad|[Hc Hk]]; [discriminate|].
      destruct (DirectiveFacts.ngOnInit_rejects d
                  "ssvCommand: [ssvCommand] is not defined properly!")
        as (x & t & -> & _); [|eexists; reflexivity].
      intros d' Hsame. apply DirectiveFacts.resolveCommand_unrecognised;
        rewrite Hsame; assumption.
    - destruct (DirectiveFacts.ngOnInit_rejects d
                  "ssvCommand: [ssvCommand] should be defined!")
        as (x & t & -> & _); [|eexists; reflexivity].
      intros d' Hsame. apply DirectiveFacts.resolveCommand_undefined.
      rewrite Hsame. exact Htruthy. }
  destruct Hthrow as (e & Hthrow).
  destruct (ngOnInit_threw d e Hthrow) as (_ & _ & Hcmd & Hcalls & _).
  destruct (run_keeps events (state (ngOnInit d)) Hl) as (Hkeep & _).
  cbn [callsDuring stateAfter handle]. split.
  - rewrite commandCalls_app, Hcalls, callsDuring_app, commandCalls_app.
    rewrite (run_commandCalls_none events _ Hl Hcmd).
    cbn [callsDuring handle].
    rewrite DirectiveFacts.ngOnDestroy_runs. project.
    rewrite Hkeep, Hcmd. reflexivity.
  - rewrite onClick_closed, Hkeep, Hcmd. reflexivity.
Qed.

Lemma rejected_input_never_reaches_a_command_witness :
  commandCalls
    (@callsDuring Demo.util
       [Init; Deliver Click; Deliver (CanExecuteNext true); Destroy]
       Demo.unbound)
  = [].
Proof.
  exact (proj1 (@rejected_input_never_reaches_a_command Demo.util
                  Demo.options JUndefined JUndefined
                  [Deliver Click; Deliver (CanExecuteNext true)]
                  (or_introl eq_refl) eq_refl)).
Defined.

(** X12.  When the input is a Command, [ngOnInit] returns, stores that
    very value, subscribes it once and leaves [commandParams] as bound,
    a falsy value included -- whatever [isCommandCreator] would answer,
    which is never asked. *)
Theorem command_instance_keeps_params {U : CommandUtil}
        (d : CommandDirective) :
  truthy (commandOrCreator d) = true ->
  isCommand (commandOrCreator d) = true ->
  result (ngOnInit d) = Ok tt
  /\ _command (state (ngOnInit d)) = Some (Given (commandOrCreator d))
  /\ commandParams (state (ngOnInit d)) = commandParams d
  /\ commandCalls (trace (ngOnInit d))
     = [CommandSubscribe (Given (commandOrCreator d))].
Proof.
  intros Ht Hc.
  destruct (DirectiveFacts.ngOnInit_given d Ht Hc)
    as (x & y & e & t & later & Heq & _).
  assert (Hok : result (ngOnInit d) = Ok tt) by now rewrite Heq.
  destruct (ngOnInit_when_returned d Hok) as (c & Hr & Hcmd & _ & Hcalls & _).
  destruct (set_disabled_keeps true d) as (_ & _ & Si & _).
  rewrite (DirectiveFacts.resolveCommand_given _
             (eq_trans (f_equal truthy Si) Ht)
             (eq_trans (f_equal isCommand Si) Hc)) in Hr.
  project. injection Hr as <-. rewrite Si in Hcmd, Hcalls.
  split; [exact Hok|]. split; [exact Hcmd|].
  split; [now rewrite Heq|exact Hcalls].
Qed.

Lemma command_instance_keeps_params_witness :
  commandParams
    (state (@ngOnInit Demo.util (create Demo.options (JObject 7) (JNumber 0))))
  = JNumber 0.
Proof.
  exact (proj1 (proj2 (proj2
           (@command_instance_keeps_params Demo.util
              (create Demo.options (JObject 7) (JNumber 0))
              eq_refl eq_refl)))).
Defined.

(** X13.  Every change of [disabled] is logged with [console.error]
    (line 104), and nothing else is: for a directive from its
    constructor, over an [ngOnInit] that returns and the events after
    it, the values logged are [true] (from [ngOnInit]) and then each
    assigned value that differs from the one before it. *)
Theorem console_logs_every_change {U : CommandUtil}
        (cfg : CommandOptions) (input parameters : JsValue)
        (events : list Event) :
  result (ngOnInit (create cfg input parameters)) = Ok tt ->
  forallb live events = true ->
  consoleValues (callsDuring (Init :: events) (create cfg input parameters))
  = Some true :: map Some (changes true (writes events)).
Proof.
  intros Hok Hl. set (d := create cfg input parameters) in *.
  assert (Hm : mirrors d) by reflexivity.
  destruct (ngOnInit_when_returned d Hok) as (c & _ & _ & _ & _ & _ & Ho & _).
  pose proof (handle_mirrors Init d Hm) as Hm1. cbn [handle] in Hm1.
  cbn [callsDuring handle]. rewrite consoleValues_app.
  rewrite (ngOnInit_console d Hm Hok).
  rewrite (run_console events _ Hl Hm1 Ho).
  rewrite DirectiveFacts.ngOnInit_disables. reflexivity.
Qed.

Lemma console_logs_every_change_witness :
  consoleValues
    (@callsDuring Demo.util
       [Init; Deliver (CanExecuteNext false); Deliver (CanExecuteNext true);
        WriteDisabled false; WriteDisabled true]
       Demo.withCommand)
  = [Some true; Some false; Some true].
Proof.
  exact (@console_logs_every_change Demo.util Demo.options (JObject 7)
           (JArray [JString "a"; JString "b"])
           [Deliver (CanExecuteNext false); Deliver (CanExecuteNext true);
            WriteDisabled false; WriteDisabled true]
           eq_refl eq_refl).
Defined.

(** C9, as the code has it.  The first statement of [ngOnInit] leaves
    [disabled] true -- and [attr.disabled] too, on a directive fresh from
    its constructor -- before the Command is subscribed, and it stays
    true when [ngOnInit] throws.  After an [ngOnInit] that returns, and
    until [ngOnDestroy], [disabled] is what was assigned last: the
    negation of a value [canExecute$] delivered (the one it hands over on
    subscription being the first), or the value written to the [disabled]
    input; [true] if nothing was assigned since.  So while the input is
    not written, [disabled] is the negation of the last value of
    [canExecute$], and is false only after a value true. *)
Theorem disabled_is_set_first_then_follows_assignments {U : CommandUtil}
        (d : CommandDirective) (cfg : CommandOptions)
        (input parameters : JsValue)
        (events : list Event) (turns : list Turn) :
  _disabled (state (set_disabled true d)) = true
  /\ _attrDisabled (state (set_disabled true (create cfg input parameters)))
     = Some true
  /\ (forall e, result (ngOnInit d) = Throw e ->
                _disabled (state (ngOnInit d)) = true
                /\ commandCalls (trace (ngOnInit d)) = [])
  /\ (result (ngOnInit d) = Ok tt ->
      (exists c later,
          trace (ngOnInit d)
          = trace (set_disabled true d) ++ CommandSubscribe c :: later)
      /\ (forallb live events = true ->
          _disabled (stateAfter (Init :: events) d)
          = last (writes events) true)
      /\ _disabled (stateAfter (Init :: map Deliver turns) d)
         = match lastCanExecute turns with
           | Some b => negb b
           | None => true
           end
      /\ (_disabled (stateAfter (Init :: map Deliver turns) d) = false ->
          In (CanExecuteNext true) turns)).
Proof.
  split; [apply set_disabled_value|].
  split; [apply DirectiveFacts.set_disabled_fresh; reflexivity|].
  split.
  { intros e Hthrow.
    destruct (ngOnInit_threw d e Hthrow) as (_ & _ & _ & Hcalls & _).
    split; [apply DirectiveFacts.ngOnInit_disables|exact Hcalls]. }
  intro Hok.
  destruct (DirectiveFacts.ngOnInit_returned d Hok) as [Hopen Htrace].
  assert (Hturns : _disabled (stateAfter (Init :: map Deliver turns) d)
                   = match lastCanExecute turns with
                     | Some b => negb b
                     | None => true
                     end).
  { cbn [stateAfter handle]. rewrite stateAfter_turns.
    rewrite (DirectiveFacts.after_mirrors turns _ Hopen).
    rewrite DirectiveFacts.ngOnInit_disables. reflexivity. }
  split; [exact Htrace|]. split.
  - intro Hl. cbn [stateAfter handle].
    rewrite (run_disabled events _ Hl Hopen).
    rewrite DirectiveFacts.ngOnInit_disables. reflexivity.
  - split; [exact Hturns|].
    rewrite Hturns.
    destruct (lastCanExecute turns) as [[|]|] eqn:Hlast; try discriminate.
    intros _. apply DirectiveFacts.lastCanExecute_in, Hlast.
Qed.

Lemma disabled_is_set_first_then_follows_assignments_witness :
  _disabled
    (@stateAfter Demo.util
       [Init; Deliver (CanExecuteNext true); WriteDisabled true;
        Deliver (CanExecuteNext true)]
       Demo.withCommand)
  = false
  /\ _disabled
       (@stateAfter Demo.util
          (Init :: map Deliver [CanExecuteNext false; Click;
                                CanExecuteNext true; IsExecutingNext true])
          Demo.withCommand)
     = false.
Proof.
  destruct (@disabled_is_set_first_then_follows_assignments
              Demo.util Demo.withCommand Demo.options JNull JNull
              [Deliver (CanExecuteNext true); WriteDisabled true;
               Deliver (CanExecuteNext true)]
              [CanExecuteNext false; Click; CanExecuteNext true;
               IsExecutingNext true]) as (_ & _ & _ & H).
  destruct (H eq_refl) as (_ & Hlast & Hturns & _).
  split; [exact (Hlast eq_refl)|exact Hturns].
Defined.

(** C9 as stated fails on the [disabled] input (lines 88-96).  Written
    true after [canExecute$] delivered true, [disabled] is true, not the
    negation of the last value delivered; written false before
    [canExecute$] delivered anything, [disabled] is false without any
    value true. *)
Lemma disabled_input_overrides_canExecute :
  lastCanExecute [CanExecuteNext true] = Some true
  /\ _disabled
       (@stateAfter Demo.util
          [Init; Deliver (CanExecuteNext true); WriteDisabled true]
          Demo.withCommand)
     <> negb true
  /\ _disabled
       (@stateAfter Demo.util [Init; WriteDisabled false] Demo.withCommand)
     = false
  /\ ~ In (Deliver (CanExecuteNext true)) [Init; WriteDisabled false].
Proof.
  split; [reflexivity|]. split.
  - intro H. vm_compute in H. discriminate H.
  - split; [reflexivity|].
    intros [H|[H|[]]]; discriminate H.
Qed.

End LifecycleProperties.
